(** * Circle-Puzzle: the ring geometry and the drag gesture of [script/puzzle.js]

    A shallow embedding of [PUZZLE.PuzzleCircle], [PUZZLE.PuzzleCanvas] and
    [PUZZLE.PuzzleController], followed by the properties of the interaction
    model.

    Conventions of the embedding.
    - The gesture protocol is developed with a JavaScript Number taken for a
      real number ([R]), [Math.PI] for [PI].  What depends on the rounding,
      the overflow or the underflow of the arithmetic -- the point test, the
      accumulation of rotations, the radii of the rings -- is stated and
      proved in the module [Binary64], where a Number is an IEEE-754 binary64
      float and each operation is the rounded one the code performs.
    - [numCircles] is a natural number.
    - The ring objects live in the array [circles] and nowhere else, and the
      array is never reassigned, so the reference held by [activeCircle] is
      the index of the ring it points to; a write through [activeCircle] is a
      write to that slot of [circles].
    - [lastCursorX] is a variable of the constructor's closure that the three
      handlers share; it is a field of the controller state here.
    - An uncaught [TypeError] (reading a property of [null] or [undefined])
      is the result [None] of a handler.
    - [Math.random] is a stream of draws [random : nat -> R]; the i-th ring
      takes the i-th draw.
    - The canvas is the list of rings painted since it was last cleared.
      [getCursorPosition] is applied before the handlers: they receive the
      cursor position relative to the canvas. *)

From Stdlib Require Import Reals Machin Lra Lia ZArith.
From Stdlib Require Floats QArith.
From stdpp Require Import base option list.

#[local] Open Scope R_scope.

(** ** Numbers *)

(** The JavaScript comparison [a < b] on Numbers. *)
Definition Rltb (a b : R) : bool := if Rlt_dec a b then true else false.

(** [Math.min] of four arguments. *)
Definition Math_min4 (a b c d : R) : R := Rmin (Rmin (Rmin a b) c) d.

(** ** Image: only its dimensions are read *)

Module Image.
Record t : Type := mk { width : R; height : R }.
End Image.

(** ** PUZZLE.PuzzleCircle *)

Module PuzzleCircle.

Record t : Type := mk {
  x : R;
  y : R;
  radius : R;
  image : Image.t;
  rotation : R
}.

(** [PuzzleCircle.prototype.isInside] *)
Definition isInside (this : t) (px py : R) : bool :=
  let xDist := x this - px in
  let yDist := y this - py in
  Rltb ((xDist * xDist) + (yDist * yDist)) (radius this * radius this).

(** [circle.rotation += d] *)
Definition add_rotation (d : R) (this : t) : t :=
  mk (x this) (y this) (radius this) (image this) (rotation this + d).

End PuzzleCircle.

(** ** PUZZLE.PuzzleCanvas *)

Module PuzzleCanvas.

Record t : Type := mk {
  width : R;
  height : R;
  painted : list PuzzleCircle.t
}.

Definition getWidth (this : t) : R := width this.
Definition getHeight (this : t) : R := height this.

(** [PuzzleCanvas.prototype.clear] *)
Definition clear (this : t) : t := mk (width this) (height this) [].

(** [PuzzleCanvas.prototype.drawPuzzleCircle]: the ring is painted over
    what is already there. *)
Definition drawPuzzleCircle (this : t) (puzzleCircle : PuzzleCircle.t) : t :=
  mk (width this) (height this) (painted this ++ [puzzleCircle]).

End PuzzleCanvas.

(** ** PUZZLE.PuzzleController *)

Module PuzzleController.

Definition FULL_ROTATION : R := PI * 2.
Definition ROTATION_SPEED : R := 50.

Record t : Type := mk {
  puzzleCanvas : PuzzleCanvas.t;
  isDragging : bool;
  activeCircle : option nat;
  circles : list PuzzleCircle.t;
  lastCursorX : option R
}.

Definition set_puzzleCanvas (c : PuzzleCanvas.t) (this : t) : t :=
  mk c (isDragging this) (activeCircle this) (circles this) (lastCursorX this).
Definition set_isDragging (b : bool) (this : t) : t :=
  mk (puzzleCanvas this) b (activeCircle this) (circles this) (lastCursorX this).
Definition set_activeCircle (a : option nat) (this : t) : t :=
  mk (puzzleCanvas this) (isDragging this) a (circles this) (lastCursorX this).
Definition set_circles (cs : list PuzzleCircle.t) (this : t) : t :=
  mk (puzzleCanvas this) (isDragging this) (activeCircle this) cs (lastCursorX this).
Definition set_lastCursorX (l : option R) (this : t) : t :=
  mk (puzzleCanvas this) (isDragging this) (activeCircle this) (circles this) l.

(** [PuzzleController.prototype.draw]: clear, then paint the rings from
    index 0 upwards. *)
Definition draw (this : t) : t :=
  set_puzzleCanvas
    (fold_left PuzzleCanvas.drawPuzzleCircle (circles this)
               (PuzzleCanvas.clear (puzzleCanvas this)))
    this.

(** [PuzzleController.prototype.rotateCircle]; [circle] is the index of the
    ring object in [circles]. *)
Definition rotateCircle (this : t) (circle : nat) (rotation : R) : t :=
  draw (set_circles (alter (PuzzleCircle.add_rotation rotation) circle (circles this)) this).

(** The loop of the constructor that creates the rings: [n] iterations are
    left, [i] is the loop variable. *)
Fixpoint createCircles (centerX centerY : R) (image : Image.t) (radiusDiff : R)
    (random : nat -> R) (n i : nat) (currRadius : R) : list PuzzleCircle.t :=
  match n with
  | O => []
  | S n' =>
      let rotation := random i * FULL_ROTATION in
      PuzzleCircle.mk centerX centerY currRadius image rotation
        :: createCircles centerX centerY image radiusDiff random n' (S i)
             (currRadius - radiusDiff)
  end.

Definition maxRadius (puzzleCanvas : PuzzleCanvas.t) (image : Image.t) : R :=
  Math_min4 (PuzzleCanvas.getWidth puzzleCanvas) (PuzzleCanvas.getHeight puzzleCanvas)
            (Image.width image) (Image.height image) / 2.

(** The constructor, up to the registration of the handlers. *)
Definition new (puzzleCanvas : PuzzleCanvas.t) (image : Image.t) (numCircles : nat)
    (random : nat -> R) : t :=
  let canvasWidth := PuzzleCanvas.getWidth puzzleCanvas in
  let canvasHeight := PuzzleCanvas.getHeight puzzleCanvas in
  let maxRadius := maxRadius puzzleCanvas image in
  let centerX := canvasWidth / 2 in
  let centerY := canvasHeight / 2 in
  let radiusDiff := maxRadius / INR numCircles in
  draw (mk puzzleCanvas false None
           (createCircles centerX centerY image radiusDiff random numCircles 0 maxRadius)
           None).

(** The loop of the mousedown handler: [n] is the loop variable plus one,
    so the ring visited is [circles[n - 1]] and the loop ends at [n = 0].
    The result is the index of the ring found, if any. *)
Fixpoint findCircle (cs : list PuzzleCircle.t) (n : nat) (px py : R)
    : option (option nat) :=
  match n with
  | O => Some None
  | S i =>
      c ← cs !! i;
      if PuzzleCircle.isInside c px py then Some (Some i)
      else findCircle cs i px py
  end.

(** Handler of [mousedown], at the cursor position [(px, py)]. *)
Definition mousedown (this : t) (px py : R) : option t :=
  found ← findCircle (circles this) (length (circles this)) px py;
  match found with
  | Some i => Some (set_isDragging true (set_activeCircle (Some i) this))
  | None => Some this
  end.

(** Handler of [mouseup]. *)
Definition mouseup (this : t) : option t :=
  Some (set_lastCursorX None (set_isDragging false this)).

(** Handler of [mousemove], at the cursor position [(cursorX, cursorY)]. *)
Definition mousemove (this : t) (cursorX cursorY : R) : option t :=
  if negb (isDragging this) then Some this
  else
    match lastCursorX this with
    | None => Some (set_lastCursorX (Some cursorX) this)
    | Some last =>
        let cursorXDiff := cursorX - last in
        let rotation := - (cursorXDiff / ROTATION_SPEED) in
        a ← activeCircle this;
        c ← circles this !! a;
        let rotation :=
          if Rltb cursorY (PuzzleCircle.y c) then FULL_ROTATION - rotation
          else rotation in
        Some (set_lastCursorX (Some cursorX) (rotateCircle this a rotation))
    end.

End PuzzleController.

(** ** Events *)

Inductive event : Type :=
| MouseDown (px py : R)
| MouseUp
| MouseMove (px py : R).

Definition dispatch (s : PuzzleController.t) (e : event) : option PuzzleController.t :=
  match e with
  | MouseDown px py => PuzzleController.mousedown s px py
  | MouseUp => PuzzleController.mouseup s
  | MouseMove px py => PuzzleController.mousemove s px py
  end.

(** The handlers run one after the other; an uncaught error in one of them
    ends the run in this model. *)
Fixpoint run (s : PuzzleController.t) (es : list event) : option PuzzleController.t :=
  match es with
  | [] => Some s
  | e :: es' => s' ← dispatch s e; run s' es'
  end.

(** ** Vocabulary of the properties *)

Section Vocabulary.

Import PuzzleCircle.

(** Squared Euclidean distance from a point to the centre of a ring. *)
Definition sqDistance (c : PuzzleCircle.t) (px py : R) : R :=
  (px - x c)² + (py - y c)².

(** The fields of a ring other than its rotation. *)
Definition geometry (c : PuzzleCircle.t) : R * R * R * Image.t :=
  (x c, y c, radius c, image c).

End Vocabulary.

Section ControllerVocabulary.

Import PuzzleController.

(** [j] is the innermost ring of [cs] that contains the point: the ring of
    highest index whose [isInside] holds. *)
Definition innermost_at (cs : list PuzzleCircle.t) (px py : R) (j : nat) : Prop :=
  (∃ c, cs !! j = Some c ∧ PuzzleCircle.isInside c px py = true) ∧
  ∀ k ck, (j < k)%nat → cs !! k = Some ck → PuzzleCircle.isInside ck px py = false.

(** While a drag is on, [activeCircle] points to a ring of the puzzle. *)
Definition grip_ok (s : PuzzleController.t) : Prop :=
  isDragging s = true →
  ∃ a, activeCircle s = Some a ∧ (a < length (circles s))%nat.

(** Outside a drag, no horizontal position is cached. *)
Definition baseline_clean (s : PuzzleController.t) : Prop :=
  isDragging s = false → lastCursorX s = None.

Definition is_mousedown (e : event) : bool :=
  match e with MouseDown _ _ => true | _ => false end.

(** A 400 x 400 canvas and a 400 x 400 image. *)
Definition canvas400 : PuzzleCanvas.t := PuzzleCanvas.mk 400 400 [].
Definition image400 : Image.t := Image.mk 400 400.

(** A drag of the inner of two rings, with 100 cached. *)
Definition two_rings : list PuzzleCircle.t :=
  [PuzzleCircle.mk 200 200 200 image400 1; PuzzleCircle.mk 200 200 100 image400 2].

Definition dragging_inner : PuzzleController.t :=
  PuzzleController.mk canvas400 true (Some 1%nat) two_rings (Some 100).

(** The same drag before its first move. *)
Definition grabbed_inner : PuzzleController.t :=
  PuzzleController.mk canvas400 true (Some 1%nat) two_rings None.

End ControllerVocabulary.

(** ** The cursor position

    [UTIL.getCursorPosition] and [PuzzleCanvas.prototype.getCursorPosition].
    A coordinate is [Some] number, or [None] when it is not a number
    ([undefined], or the NaN that subtracting from [undefined] gives). *)

Module UTIL.

(** The fields of a mouse event that are read; [pageX] and [pageY] are
    [undefined] in a browser that does not provide them. *)
Record MouseEvent : Type := mkMouseEvent {
  pageX : option R;
  pageY : option R;
  clientX : R;
  clientY : R
}.

(** The scroll offsets of [document.body] and [document.documentElement]. *)
Record Document : Type := mkDocument {
  body_scrollLeft : R;
  body_scrollTop : R;
  documentElement_scrollLeft : R;
  documentElement_scrollTop : R
}.

(** The truth value of a Number or of [undefined] in a condition. *)
Definition truthy (v : option R) : bool :=
  match v with
  | Some r => if Req_dec_T r 0 then false else true
  | None => false
  end.

Definition getCursorPosition (document : Document) (event : MouseEvent)
    : option R * option R :=
  if truthy (pageX event) || truthy (pageY event) then
    (pageX event, pageY event)
  else
    (Some (clientX event + body_scrollLeft document
           + documentElement_scrollLeft document),
     Some (clientY event + body_scrollTop document
           + documentElement_scrollTop document)).

End UTIL.

Module CanvasElement.

(** The position of the canvas element in its container. *)
Record t : Type := mk { offsetLeft : R; offsetTop : R }.

(** [PuzzleCanvas.prototype.getCursorPosition], for the element [canvas]
    of the puzzle canvas. *)
Definition getCursorPosition (canvas : t) (document : UTIL.Document)
    (event : UTIL.MouseEvent) : option R * option R :=
  let cursorPos := UTIL.getCursorPosition document event in
  ((λ v, v - offsetLeft canvas) <$> cursorPos.1,
   (λ v, v - offsetTop canvas) <$> cursorPos.2).

End CanvasElement.

(** ** The 2D context

    The calls [clear] and [drawPuzzleCircle] make on [gfxContext], on a
    context that records what it is asked to draw.  The drawing state is
    what [save] pushes and [restore] pops: the composite operation, the
    transformation (the operations applied so far, oldest first) and the
    clipping region (the paths intersected so far).  The current path is
    not part of it. *)

Module Context2D.

Inductive composite : Type := source_over | destination_over.

Inductive transform_op : Type :=
| Translate (x y : R)
| Rotate (angle : R).

Inductive subpath : Type :=
| Arc (under : list transform_op) (x y radius startAngle endAngle : R)
      (anticlockwise : bool).

Record drawing_state : Type := mkState {
  globalCompositeOperation : composite;
  transform : list transform_op;
  clipping : list (list subpath)
}.

Inductive command : Type :=
| ClearRect (st : drawing_state) (x y w h : R)
| DrawImage (st : drawing_state) (img : Image.t) (dx dy : R).

Record t : Type := mk {
  current : drawing_state;
  saved : list drawing_state;
  path : list subpath;
  output : list command
}.

Definition save (ctx : t) : t :=
  mk (current ctx) (current ctx :: saved ctx) (path ctx) (output ctx).

Definition restore (ctx : t) : t :=
  match saved ctx with
  | [] => ctx
  | st :: rest => mk st rest (path ctx) (output ctx)
  end.

Definition set_globalCompositeOperation (op : composite) (ctx : t) : t :=
  mk (mkState op (transform (current ctx)) (clipping (current ctx)))
     (saved ctx) (path ctx) (output ctx).

Definition apply_transform (op : transform_op) (ctx : t) : t :=
  mk (mkState (globalCompositeOperation (current ctx))
              (transform (current ctx) ++ [op]) (clipping (current ctx)))
     (saved ctx) (path ctx) (output ctx).

Definition translate (x y : R) (ctx : t) : t := apply_transform (Translate x y) ctx.
Definition rotate (angle : R) (ctx : t) : t := apply_transform (Rotate angle) ctx.

Definition beginPath (ctx : t) : t :=
  mk (current ctx) (saved ctx) [] (output ctx).

Definition arc (x y radius startAngle endAngle : R) (anticlockwise : bool) (ctx : t) : t :=
  mk (current ctx) (saved ctx)
     (path ctx ++ [Arc (transform (current ctx)) x y radius startAngle endAngle
                       anticlockwise])
     (output ctx).

Definition clip (ctx : t) : t :=
  mk (mkState (globalCompositeOperation (current ctx)) (transform (current ctx))
              (clipping (current ctx) ++ [path ctx]))
     (saved ctx) (path ctx) (output ctx).

Definition drawImage (img : Image.t) (dx dy : R) (ctx : t) : t :=
  mk (current ctx) (saved ctx) (path ctx)
     (output ctx ++ [DrawImage (current ctx) img dx dy]).

Definition clearRect (x y w h : R) (ctx : t) : t :=
  mk (current ctx) (saved ctx) (path ctx)
     (output ctx ++ [ClearRect (current ctx) x y w h]).

End Context2D.

(** [PuzzleCanvas.prototype.clear], [drawPuzzleCircle] and the loop of
    [PuzzleController.prototype.draw], as calls on the context of a canvas
    of the given width and height. *)

Module PuzzleCanvas2D.

Definition clear (canvasWidth canvasHeight : R) (context : Context2D.t) : Context2D.t :=
  Context2D.clearRect 0 0 canvasWidth canvasHeight
    (Context2D.set_globalCompositeOperation Context2D.destination_over context).

Definition drawPuzzleCircle (context : Context2D.t) (puzzleCircle : PuzzleCircle.t)
    : Context2D.t :=
  let context := Context2D.save context in
  let context := Context2D.set_globalCompositeOperation Context2D.source_over context in
  let context :=
    Context2D.translate (PuzzleCircle.x puzzleCircle) (PuzzleCircle.y puzzleCircle)
      context in
  let context := Context2D.rotate (PuzzleCircle.rotation puzzleCircle) context in
  let context := Context2D.beginPath context in
  let context :=
    Context2D.arc 0 0 (PuzzleCircle.radius puzzleCircle) 0 (PI * 2) false context in
  let context := Context2D.clip context in
  let context :=
    Context2D.drawImage (PuzzleCircle.image puzzleCircle)
      (- (Image.width (PuzzleCircle.image puzzleCircle) / 2))
      (- (Image.height (PuzzleCircle.image puzzleCircle) / 2)) context in
  Context2D.restore context.

Definition draw (canvasWidth canvasHeight : R) (circles : list PuzzleCircle.t)
    (context : Context2D.t) : Context2D.t :=
  fold_left drawPuzzleCircle circles (clear canvasWidth canvasHeight context).

End PuzzleCanvas2D.

(** ** Further vocabulary *)

Section FurtherVocabulary.

(** The canvas shows the rings as they are. *)
Definition in_sync (s : PuzzleController.t) : Prop :=
  PuzzleCanvas.painted (PuzzleController.puzzleCanvas s) = PuzzleController.circles s.

(** The state a mousedown that finds ring [j] produces. *)
Definition grab (j : nat) (s : PuzzleController.t) : PuzzleController.t :=
  PuzzleController.set_isDragging true (PuzzleController.set_activeCircle (Some j) s).

(** What one ring contributes to a frame drawn from the drawing state [st]:
    the image, its centre on the origin, under the translation to the centre
    of the ring and the rotation of the ring, clipped to the circle of the
    ring, composited over what is there. *)
Definition ring_command (st : Context2D.drawing_state) (c : PuzzleCircle.t)
    : Context2D.command :=
  let tr := Context2D.transform st
            ++ [Context2D.Translate (PuzzleCircle.x c) (PuzzleCircle.y c);
                Context2D.Rotate (PuzzleCircle.rotation c)] in
  Context2D.DrawImage
    (Context2D.mkState Context2D.source_over tr
       (Context2D.clipping st
        ++ [[Context2D.Arc tr 0 0 (PuzzleCircle.radius c) 0 (PI * 2) false]]))
    (PuzzleCircle.image c)
    (- (Image.width (PuzzleCircle.image c) / 2))
    (- (Image.height (PuzzleCircle.image c) / 2)).

(** A context whose drawing state was changed and saved before. *)
Definition used_context : Context2D.t :=
  Context2D.mk
    (Context2D.mkState Context2D.source_over [Context2D.Translate 3 4] [])
    [Context2D.mkState Context2D.source_over [] []] [] [].

(** An event at page position (250, 300) in a document scrolled by
    (50, 100), and the same event in a browser that has no [pageX]. *)
Definition scrolled : UTIL.Document := UTIL.mkDocument 50 100 0 0.
Definition event_page : UTIL.MouseEvent := UTIL.mkMouseEvent (Some 250) (Some 300) 200 200.
Definition event_legacy : UTIL.MouseEvent := UTIL.mkMouseEvent None None 200 200.
Definition canvas_at_10_20 : CanvasElement.t := CanvasElement.mk 10 20.

End FurtherVocabulary.

(** ** The arithmetic of the code: IEEE-754 binary64

    The definitions above take a Number for a real.  The functions whose
    results depend on rounding, overflow or underflow are given here a second
    time, with the Number of JavaScript: a binary64 float, each operation
    rounded to nearest.  These are [isInside], [rotateCircle] (with [draw]) and
    the constructor; the records are those of the source, with float fields. *)

Module Binary64.

Import PrimFloat FloatOps SpecFloat QArith_base.
#[local] Set Warnings "-inexact-float".
#[local] Open Scope float_scope.

(** [Math.PI] *)
Definition Math_PI : float := 0x1.921fb54442d18p+1.

(** [Math.min] of two Numbers: NaN if either is NaN, and -0 below +0. *)
Definition Math_min2 (a b : float) : float :=
  if is_nan a || is_nan b then nan
  else if a <? b then a
  else if b <? a then b
  else if get_sign a then a else b.

(** [Math.min] of four arguments, taken from left to right. *)
Definition Math_min4 (a b c d : float) : float :=
  Math_min2 (Math_min2 (Math_min2 a b) c) d.

(** The Number that is the natural number [n]; [numCircles] is a count,
    and the conversion is exact below 2^53. *)
Definition Number_of_nat (n : nat) : float :=
  of_uint63 (Uint63Axioms.of_Z (Z.of_nat n)).

Module Image.
Record t : Type := mk { width : float; height : float }.
End Image.

Module PuzzleCircle.

Record t : Type := mk {
  x : float;
  y : float;
  radius : float;
  image : Image.t;
  rotation : float
}.

(** [PuzzleCircle.prototype.isInside] *)
Definition isInside (this : t) (px py : float) : bool :=
  let xDist := x this - px in
  let yDist := y this - py in
  ((xDist * xDist) + (yDist * yDist)) <? (radius this * radius this).

(** [circle.rotation += d] *)
Definition add_rotation (d : float) (this : t) : t :=
  mk (x this) (y this) (radius this) (image this) (rotation this + d).

End PuzzleCircle.

Module PuzzleCanvas.

Record t : Type := mk {
  width : float;
  height : float;
  painted : list PuzzleCircle.t
}.

Definition getWidth (this : t) : float := width this.
Definition getHeight (this : t) : float := height this.

Definition clear (this : t) : t := mk (width this) (height this) [].

Definition drawPuzzleCircle (this : t) (puzzleCircle : PuzzleCircle.t) : t :=
  mk (width this) (height this) (painted this ++ [puzzleCircle]).

End PuzzleCanvas.

Module PuzzleController.

Definition FULL_ROTATION : float := Math_PI * 2.
Definition ROTATION_SPEED : float := 50.

Record t : Type := mk {
  puzzleCanvas : PuzzleCanvas.t;
  isDragging : bool;
  activeCircle : option nat;
  circles : list PuzzleCircle.t;
  lastCursorX : option float
}.

Definition set_puzzleCanvas (c : PuzzleCanvas.t) (this : t) : t :=
  mk c (isDragging this) (activeCircle this) (circles this) (lastCursorX this).
Definition set_circles (cs : list PuzzleCircle.t) (this : t) : t :=
  mk (puzzleCanvas this) (isDragging this) (activeCircle this) cs (lastCursorX this).

(** [PuzzleController.prototype.draw] *)
Definition draw (this : t) : t :=
  set_puzzleCanvas
    (fold_left PuzzleCanvas.drawPuzzleCircle (circles this)
               (PuzzleCanvas.clear (puzzleCanvas this)))
    this.

(** [PuzzleController.prototype.rotateCircle]; [circle] is the index of the
    ring object in [circles]. *)
Definition rotateCircle (this : t) (circle : nat) (rotation : float) : t :=
  draw (set_circles (alter (PuzzleCircle.add_rotation rotation) circle (circles this)) this).

(** The loop of the constructor that creates the rings: [n] iterations are
    left, [i] is the loop variable. *)
Fixpoint createCircles (centerX centerY : float) (image : Image.t) (radiusDiff : float)
    (random : nat -> float) (n i : nat) (currRadius : float) : list PuzzleCircle.t :=
  match n with
  | O => []
  | S n' =>
      let rotation := random i * FULL_ROTATION in
      PuzzleCircle.mk centerX centerY currRadius image rotation
        :: createCircles centerX centerY image radiusDiff random n' (S i)
             (currRadius - radiusDiff)
  end.

Definition maxRadius (puzzleCanvas : PuzzleCanvas.t) (image : Image.t) : float :=
  Math_min4 (PuzzleCanvas.getWidth puzzleCanvas) (PuzzleCanvas.getHeight puzzleCanvas)
            (Image.width image) (Image.height image) / 2.

(** The constructor, up to the registration of the handlers. *)
Definition new (puzzleCanvas : PuzzleCanvas.t) (image : Image.t) (numCircles : nat)
    (random : nat -> float) : t :=
  let canvasWidth := PuzzleCanvas.getWidth puzzleCanvas in
  let canvasHeight := PuzzleCanvas.getHeight puzzleCanvas in
  let maxRadius := maxRadius puzzleCanvas image in
  let centerX := canvasWidth / 2 in
  let centerY := canvasHeight / 2 in
  let radiusDiff := maxRadius / Number_of_nat numCircles in
  draw (mk puzzleCanvas false None
           (createCircles centerX centerY image radiusDiff random numCircles 0 maxRadius)
           None).

End PuzzleController.

(** *** Vocabulary *)

(** The rational number a finite Number stands for. *)
Definition exact (f : float) : option Q :=
  match Prim2SF f with
  | S754_zero _ => Some 0%Q
  | S754_finite s m e =>
      Some (Qmult (inject_Z (if s then Zneg m else Zpos m)) (Qpower 2 e))
  | _ => None
  end.





(** The fields of a ring other than its rotation. *)
Definition geometry (c : PuzzleCircle.t) : float * float * float * Image.t :=
  (PuzzleCircle.x c, PuzzleCircle.y c, PuzzleCircle.radius c, PuzzleCircle.image c).

(** A canvas and an image of [w] by [w]. *)
Definition square_canvas (w : float) : PuzzleCanvas.t := PuzzleCanvas.mk w w [].
Definition square_image (w : float) : Image.t := Image.mk w w.

(** A ring around the origin. *)
Definition ring_at_origin (radius rotation : float) : PuzzleCircle.t :=
  PuzzleCircle.mk 0 0 radius (square_image 400) rotation.

(** A controller with one ring, around the origin, of radius 1. *)
Definition one_ring (rotation : float) : PuzzleController.t :=
  PuzzleController.mk (square_canvas 400) false None [ring_at_origin 1 rotation] None.

End Binary64.

(** ** Comparison *)

Lemma Rltb_true (a b : R) : Rltb a b = true ↔ a < b.
Proof. unfold Rltb. destruct (Rlt_dec a b); split; intros; (done || lra). Qed.

Lemma Rltb_false (a b : R) : Rltb a b = false ↔ b <= a.
Proof. unfold Rltb. destruct (Rlt_dec a b); split; intros; (done || lra). Qed.

(** ** The ring *)

Lemma isInside_sqDistance (c : PuzzleCircle.t) (px py : R) :
  PuzzleCircle.isInside c px py = true ↔ sqDistance c px py < (PuzzleCircle.radius c)².
Proof.
  unfold PuzzleCircle.isInside, sqDistance, Rsqr. rewrite Rltb_true.
  split; intros H; nra.
Qed.

Lemma isInside_false (c : PuzzleCircle.t) (px py : R) :
  PuzzleCircle.isInside c px py = false ↔ (PuzzleCircle.radius c)² <= sqDistance c px py.
Proof.
  unfold PuzzleCircle.isInside, sqDistance, Rsqr. rewrite Rltb_false.
  split; intros H; nra.
Qed.

(** ** The mousedown handler *)

Lemma findCircle_spec (cs : list PuzzleCircle.t) (px py : R) (n : nat) :
  (n ≤ length cs)%nat →
  (∃ j, PuzzleController.findCircle cs n px py = Some (Some j) ∧ (j < n)%nat ∧
        (∃ c, cs !! j = Some c ∧ PuzzleCircle.isInside c px py = true) ∧
        ∀ k ck, (j < k < n)%nat → cs !! k = Some ck →
                PuzzleCircle.isInside ck px py = false) ∨
  (PuzzleController.findCircle cs n px py = Some None ∧
   ∀ k ck, (k < n)%nat → cs !! k = Some ck → PuzzleCircle.isInside ck px py = false).
Proof.
  induction n as [|i IH]; intros Hn.
  - right. split; [reflexivity | intros k ck Hk; lia].
  - destruct (lookup_lt_is_Some_2 cs i ltac:(lia)) as [c Hc].
    simpl. rewrite Hc. simpl.
    destruct (PuzzleCircle.isInside c px py) eqn:Hin.
    + left. exists i. repeat split; [lia | eauto | intros k ck Hk; lia].
    + destruct (IH ltac:(lia)) as [(j & Hf & Hj & Hc' & Hab) | (Hf & Hab)].
      * left. exists j. repeat split; [exact Hf | lia | exact Hc' |].
        intros k ck Hk Hck. destruct (decide (k = i)) as [->|Hne].
        -- congruence.
        -- apply (Hab k ck); [lia | exact Hck].
      * right. split; [exact Hf|].
        intros k ck Hk Hck. destruct (decide (k = i)) as [->|Hne].
        -- congruence.
        -- apply (Hab k ck); [lia | exact Hck].
Qed.

Lemma mousedown_spec (s : PuzzleController.t) (px py : R) :
  (∃ j, innermost_at (PuzzleController.circles s) px py j ∧
        PuzzleController.mousedown s px py =
          Some (PuzzleController.set_isDragging true
                  (PuzzleController.set_activeCircle (Some j) s))) ∨
  ((∀ k ck, PuzzleController.circles s !! k = Some ck →
            PuzzleCircle.isInside ck px py = false) ∧
   PuzzleController.mousedown s px py = Some s).
Proof.
  unfold PuzzleController.mousedown.
  destruct (findCircle_spec (PuzzleController.circles s) px py
              (length (PuzzleController.circles s)) (le_n _))
    as [(j & Hf & Hj & Hc & Hab) | (Hf & Hab)]; rewrite Hf; simpl.
  - left. exists j. split; [|reflexivity]. split; [exact Hc|].
    intros k ck Hk Hck. apply (Hab k ck); [|exact Hck].
    apply lookup_lt_Some in Hck. lia.
  - right. split; [|reflexivity].
    intros k ck Hck. apply (Hab k ck); [|exact Hck].
    apply lookup_lt_Some in Hck. lia.
Qed.

Lemma innermost_at_above (cs : list PuzzleCircle.t) (px py : R) (j i : nat) (c : PuzzleCircle.t) :
  innermost_at cs px py j → cs !! i = Some c → PuzzleCircle.isInside c px py = true →
  (i ≤ j)%nat.
Proof.
  intros [_ Hab] Hc Hin. destruct (le_lt_dec i j) as [|Hlt]; [assumption|].
  rewrite (Hab i c Hlt Hc) in Hin. discriminate.
Qed.

(** C2. On mousedown at [(px, py)] the ring that becomes active is the ring
    of highest index that contains the point: it is at or after every ring
    that contains the point, and no ring of higher index contains it.  When
    no ring contains the point, the state is left as it is, so an idle model
    stays idle. *)
Theorem mousedown_selects_innermost (s : PuzzleController.t) (px py : R) :
  (∀ i c,
     PuzzleController.circles s !! i = Some c →
     PuzzleCircle.isInside c px py = true →
     ∃ j, (i ≤ j)%nat ∧ innermost_at (PuzzleController.circles s) px py j ∧
          PuzzleController.mousedown s px py =
            Some (PuzzleController.set_isDragging true
                    (PuzzleController.set_activeCircle (Some j) s))) ∧
  ((∀ i c, PuzzleController.circles s !! i = Some c →
           PuzzleCircle.isInside c px py = false) →
   PuzzleController.mousedown s px py = Some s).
Proof.
  destruct (mousedown_spec s px py) as [(j & Hj & Hm) | (Hnone & Hm)]; split.
  - intros i c Hc Hin. exists j. split; [|split; assumption].
    eapply innermost_at_above; eassumption.
  - intros Hnone. destruct Hj as [(c & Hc & Hin) _].
    rewrite (Hnone j c Hc) in Hin. discriminate.
  - intros i c Hc Hin. rewrite (Hnone i c Hc) in Hin. discriminate.
  - intros _. exact Hm.
Qed.

Lemma two_rings_centre_inside (c : PuzzleCircle.t) (i : nat) :
  two_rings !! i = Some c → PuzzleCircle.isInside c 200 200 = true.
Proof.
  destruct i as [|[|i]]; simpl; intros [= <-];
    apply isInside_sqDistance; unfold sqDistance, Rsqr; simpl; lra.
Qed.

(** The theorem at two concentric rings and their common centre, which both
    contain: the inner ring, of index 1, becomes active. *)
Lemma mousedown_selects_innermost_witness :
  PuzzleController.mousedown
    (PuzzleController.mk canvas400 false None two_rings None) 200 200 =
  Some (PuzzleController.mk canvas400 true (Some 1%nat) two_rings None).
Proof.
  destruct (mousedown_selects_innermost
              (PuzzleController.mk canvas400 false None two_rings None) 200 200)
    as [Hsel _].
  destruct (Hsel 1%nat (PuzzleCircle.mk 200 200 100 image400 2) eq_refl
              (two_rings_centre_inside _ 1%nat eq_refl))
    as (j & Hle & [(c & Hc & _) _] & Hm).
  apply lookup_lt_Some in Hc. simpl in Hc.
  assert (j = 1%nat) as -> by lia. exact Hm.
Defined.

(** C9. A mousedown that arrives during a drag is handled like any other:
    when its point lies inside some ring, the innermost ring that contains
    it becomes the active ring, the drag goes on, no error is raised, and
    nothing else changes -- the cached horizontal position included. *)
Theorem mousedown_while_dragging (s : PuzzleController.t) (px py : R)
    (i : nat) (c : PuzzleCircle.t) :
  PuzzleController.isDragging s = true →
  PuzzleController.circles s !! i = Some c →
  PuzzleCircle.isInside c px py = true →
  ∃ j s',
    PuzzleController.mousedown s px py = Some s' ∧
    innermost_at (PuzzleController.circles s) px py j ∧
    PuzzleController.activeCircle s' = Some j ∧
    PuzzleController.isDragging s' = true ∧
    PuzzleController.lastCursorX s' = PuzzleController.lastCursorX s ∧
    PuzzleController.circles s' = PuzzleController.circles s ∧
    PuzzleController.puzzleCanvas s' = PuzzleController.puzzleCanvas s.
Proof.
  intros _ Hc Hin.
  destruct (mousedown_spec s px py) as [(j & Hj & Hm) | (Hnone & _)].
  - exists j. eexists. split; [exact Hm|]. split; [exact Hj|]. by simpl.
  - rewrite (Hnone i c Hc) in Hin. discriminate.
Qed.

(** The theorem at a drag of the inner of two rings with 100 cached: a
    mousedown on the common centre keeps the cached 100. *)
Lemma mousedown_while_dragging_witness :
  ∃ j s',
    PuzzleController.mousedown dragging_inner 200 200 = Some s' ∧
    innermost_at two_rings 200 200 j ∧
    PuzzleController.activeCircle s' = Some j ∧
    PuzzleController.isDragging s' = true ∧
    PuzzleController.lastCursorX s' = Some 100 ∧
    PuzzleController.circles s' = two_rings ∧
    PuzzleController.puzzleCanvas s' = canvas400.
Proof.
  exact (mousedown_while_dragging dragging_inner 200 200 0%nat
           (PuzzleCircle.mk 200 200 200 image400 1) eq_refl eq_refl
           (two_rings_centre_inside _ 0%nat eq_refl)).
Defined.

(** ** The mousemove and mouseup handlers *)

(** [Math.PI] to four decimal places, from the series of Machin's formula
    with arctangents of 1/3 and 1/7. *)
Lemma PI_4_decimals : 3.1415 < PI < 3.1416.
Proof.
  pose proof (PI_2_3_7_ineq 2) as [Hlo Hhi].
  unfold PI_2_3_7_tg, tg_alt, Ratan_seq in Hlo, Hhi.
  simpl in Hlo, Hhi.
  split; lra.
Qed.

Lemma mousemove_idle (s : PuzzleController.t) (px py : R) :
  PuzzleController.isDragging s = false → PuzzleController.mousemove s px py = Some s.
Proof. intros H. unfold PuzzleController.mousemove. by rewrite H. Qed.

Lemma mousemove_first (s : PuzzleController.t) (px py : R) :
  PuzzleController.isDragging s = true →
  PuzzleController.lastCursorX s = None →
  PuzzleController.mousemove s px py =
    Some (PuzzleController.set_lastCursorX (Some px) s).
Proof. intros Hd Hl. unfold PuzzleController.mousemove. by rewrite Hd, Hl. Qed.

Lemma mousemove_next (s : PuzzleController.t) (px py last : R)
    (a : nat) (c : PuzzleCircle.t) :
  PuzzleController.isDragging s = true →
  PuzzleController.lastCursorX s = Some last →
  PuzzleController.activeCircle s = Some a →
  PuzzleController.circles s !! a = Some c →
  PuzzleController.mousemove s px py =
    Some (PuzzleController.set_lastCursorX (Some px)
            (PuzzleController.rotateCircle s a
               (if Rltb py (PuzzleCircle.y c)
                then PuzzleController.FULL_ROTATION
                     - - ((px - last) / PuzzleController.ROTATION_SPEED)
                else - ((px - last) / PuzzleController.ROTATION_SPEED)))).
Proof.
  intros Hd Hl Ha Hc. unfold PuzzleController.mousemove.
  rewrite Hd, Hl, Ha. simpl. rewrite Hc. reflexivity.
Qed.

(** C1. During a drag with a cached horizontal position, a mousemove to
    [(px, py)] adds to the rotation of the active ring
    delta = -(px - cachedX) / 50 when [py] is at or below the centre of
    the ring, and 2 pi - delta when [py] is strictly above it; the other
    rings and the other fields of the active ring stay as they are, and
    [px] becomes the cached position.  From 100 to 80 delta is 0.4, and
    2 pi - 0.4 lies between 5.883 and 5.884. *)
Theorem drag_rotation (s : PuzzleController.t) (a : nat) (c : PuzzleCircle.t)
    (cachedX px py : R) :
  PuzzleController.isDragging s = true →
  PuzzleController.lastCursorX s = Some cachedX →
  PuzzleController.activeCircle s = Some a →
  PuzzleController.circles s !! a = Some c →
  let delta := - (px - cachedX) / 50 in
  ∃ s' c',
    PuzzleController.mousemove s px py = Some s' ∧
    PuzzleController.circles s' !! a = Some c' ∧
    (PuzzleCircle.y c <= py →
       PuzzleCircle.rotation c' = PuzzleCircle.rotation c + delta) ∧
    (py < PuzzleCircle.y c →
       PuzzleCircle.rotation c' = PuzzleCircle.rotation c + (2 * PI - delta)) ∧
    geometry c' = geometry c ∧
    (∀ k, k ≠ a → PuzzleController.circles s' !! k = PuzzleController.circles s !! k) ∧
    PuzzleController.lastCursorX s' = Some px ∧
    (cachedX = 100 → px = 80 → delta = 0.4 ∧ 5.883 < 2 * PI - delta < 5.884).
Proof.
  intros Hd Hl Ha Hc delta.
  rewrite (mousemove_next s px py cachedX a c Hd Hl Ha Hc).
  eexists. eexists. split; [reflexivity|].
  split; [simpl; rewrite list_lookup_alter_eq, Hc; reflexivity|].
  unfold PuzzleController.FULL_ROTATION, PuzzleController.ROTATION_SPEED.
  split; [|split; [|split; [|split; [|split]]]].
  - intros Hy. apply Rltb_false in Hy. rewrite Hy. simpl. subst delta. lra.
  - intros Hy. apply Rltb_true in Hy. rewrite Hy. simpl. subst delta. lra.
  - reflexivity.
  - intros k Hk. simpl. by rewrite list_lookup_alter_ne.
  - reflexivity.
  - intros -> ->. subst delta. pose proof PI_4_decimals. lra.
Qed.

(** The theorem at a drag of the inner of two rings centred at (200, 200),
    with 100 cached and rotation 2: a move to (80, 300), below the centre,
    brings the rotation to 2 + 0.4. *)
Lemma drag_rotation_witness :
  ∃ s' c',
    PuzzleController.mousemove dragging_inner 80 300 = Some s' ∧
    PuzzleController.circles s' !! 1%nat = Some c' ∧
    PuzzleCircle.rotation c' = 2 + 0.4.
Proof.
  destruct (drag_rotation dragging_inner 1%nat
              (PuzzleCircle.mk 200 200 100 image400 2) 100 80 300
              eq_refl eq_refl eq_refl eq_refl)
    as (s' & c' & Hm & Hc & Hbelow & _ & _ & _ & _ & Hex).
  exists s', c'. split; [exact Hm|]. split; [exact Hc|].
  destruct (Hex eq_refl eq_refl) as [<- _].
  apply Hbelow. simpl. lra.
Defined.

(** C5. A mousemove during a drag with no cached horizontal position only
    caches the horizontal position of the move: no ring changes, nothing is
    drawn, and the drag goes on with the same active ring. *)
Theorem first_move_only_caches (s : PuzzleController.t) (px py : R) :
  PuzzleController.isDragging s = true →
  PuzzleController.lastCursorX s = None →
  ∃ s',
    PuzzleController.mousemove s px py = Some s' ∧
    PuzzleController.circles s' = PuzzleController.circles s ∧
    PuzzleController.lastCursorX s' = Some px ∧
    PuzzleController.isDragging s' = true ∧
    PuzzleController.activeCircle s' = PuzzleController.activeCircle s ∧
    PuzzleController.puzzleCanvas s' = PuzzleController.puzzleCanvas s.
Proof.
  intros Hd Hl. rewrite (mousemove_first s px py Hd Hl).
  eexists. split; [reflexivity|]. by simpl.
Qed.

(** The theorem at a ring just grabbed: the move to (80, 300) caches 80. *)
Lemma first_move_only_caches_witness :
  ∃ s',
    PuzzleController.mousemove grabbed_inner 80 300 = Some s' ∧
    PuzzleController.circles s' = two_rings ∧
    PuzzleController.lastCursorX s' = Some 80 ∧
    PuzzleController.isDragging s' = true ∧
    PuzzleController.activeCircle s' = Some 1%nat ∧
    PuzzleController.puzzleCanvas s' = canvas400.
Proof. exact (first_move_only_caches grabbed_inner 80 300 eq_refl eq_refl). Defined.

(** A mousedown followed at once by a mousemove, from a state with nothing
    cached, leaves the rings as they were. *)
Lemma first_move_after_mousedown (s : PuzzleController.t) (dx dy px py : R) :
  PuzzleController.lastCursorX s = None →
  ∃ s', run s [MouseDown dx dy; MouseMove px py] = Some s' ∧
        PuzzleController.circles s' = PuzzleController.circles s.
Proof.
  intros Hl. simpl.
  destruct (mousedown_spec s dx dy) as [(j & _ & ->) | (_ & ->)]; simpl.
  - rewrite mousemove_first by done. simpl. eauto.
  - destruct (PuzzleController.isDragging s) eqn:Hd.
    + rewrite mousemove_first by done. simpl. eauto.
    + rewrite mousemove_idle by done. simpl. eauto.
Qed.

Lemma mouseup_idle_clean (s : PuzzleController.t) :
  PuzzleController.isDragging s = false →
  PuzzleController.lastCursorX s = None →
  PuzzleController.mouseup s = Some s.
Proof. destruct s; simpl; intros -> ->; reflexivity. Qed.

Lemma run_without_mousedown (s : PuzzleController.t) (es : list event) :
  PuzzleController.isDragging s = false →
  PuzzleController.lastCursorX s = None →
  forallb (λ e, negb (is_mousedown e)) es = true →
  run s es = Some s.
Proof.
  intros Hd Hl. induction es as [|e es IH]; [reflexivity|].
  intros [He Hes]%andb_true_iff.
  assert (dispatch s e = Some s) as Hstep.
  { destruct e as [dx dy| |px py]; simpl in He; [discriminate| |].
    - by apply mouseup_idle_clean.
    - by apply mousemove_idle. }
  cbn [run]. rewrite Hstep. simpl. auto.
Qed.

(** C6. From any state, mouseup ends the drag and clears the cached
    position, and leaves the rings, the active ring and the canvas as they
    are.  In the state it produces, a mousemove does nothing, and so does
    any run of events that has no mousedown in it. *)
Theorem mouseup_resets (s : PuzzleController.t) :
  ∃ s',
    PuzzleController.mouseup s = Some s' ∧
    PuzzleController.isDragging s' = false ∧
    PuzzleController.lastCursorX s' = None ∧
    PuzzleController.circles s' = PuzzleController.circles s ∧
    PuzzleController.activeCircle s' = PuzzleController.activeCircle s ∧
    PuzzleController.puzzleCanvas s' = PuzzleController.puzzleCanvas s ∧
    (∀ px py, PuzzleController.mousemove s' px py = Some s') ∧
    (∀ es, forallb (λ e, negb (is_mousedown e)) es = true → run s' es = Some s').
Proof.
  eexists. split; [reflexivity|].
  do 5 (split; [reflexivity|]). split.
  - intros px py. by apply mousemove_idle.
  - intros es Hes. by apply run_without_mousedown.
Qed.

(** The theorem at a drag with 100 cached: after mouseup, two moves and a
    second mouseup change nothing. *)
Lemma mouseup_resets_witness :
  run dragging_inner [MouseUp; MouseMove 80 300; MouseMove 60 300; MouseUp] =
  Some (PuzzleController.mk canvas400 false (Some 1%nat) two_rings None).
Proof.
  destruct (mouseup_resets dragging_inner) as (s' & Hup & _ & _ & _ & _ & _ & _ & Hrun).
  unfold PuzzleController.mouseup in Hup. injection Hup as <-.
  exact (Hrun [MouseMove 80 300; MouseMove 60 300; MouseUp] eq_refl).
Defined.

(** ** Drawing *)

Lemma draw_circles (s : PuzzleController.t) :
  PuzzleController.circles (PuzzleController.draw s) = PuzzleController.circles s.
Proof. reflexivity. Qed.

Lemma paint_all (l : list PuzzleCircle.t) (c : PuzzleCanvas.t) :
  fold_left PuzzleCanvas.drawPuzzleCircle l c =
  PuzzleCanvas.mk (PuzzleCanvas.width c) (PuzzleCanvas.height c)
                  (PuzzleCanvas.painted c ++ l).
Proof.
  revert c. induction l as [|r l IH]; intros c.
  - destruct c. simpl. by rewrite app_nil_r.
  - simpl. rewrite IH. simpl. by rewrite <- app_assoc.
Qed.

(** After [draw] the canvas shows the rings of the puzzle, outermost first. *)
Lemma draw_canvas (s : PuzzleController.t) :
  PuzzleController.puzzleCanvas (PuzzleController.draw s) =
  PuzzleCanvas.mk (PuzzleCanvas.width (PuzzleController.puzzleCanvas s))
                  (PuzzleCanvas.height (PuzzleController.puzzleCanvas s))
                  (PuzzleController.circles s).
Proof. unfold PuzzleController.draw. simpl. by rewrite paint_all. Qed.

Lemma rotateCircle_eq (s : PuzzleController.t) (a : nat) (d : R) :
  PuzzleController.rotateCircle s a d =
  PuzzleController.mk
    (PuzzleCanvas.mk (PuzzleCanvas.width (PuzzleController.puzzleCanvas s))
                     (PuzzleCanvas.height (PuzzleController.puzzleCanvas s))
                     (alter (PuzzleCircle.add_rotation d) a (PuzzleController.circles s)))
    (PuzzleController.isDragging s) (PuzzleController.activeCircle s)
    (alter (PuzzleCircle.add_rotation d) a (PuzzleController.circles s))
    (PuzzleController.lastCursorX s).
Proof.
  unfold PuzzleController.rotateCircle, PuzzleController.draw,
    PuzzleController.set_puzzleCanvas. simpl.
  by rewrite paint_all.
Qed.

(** ** What the handlers preserve *)

Lemma geometry_add_rotation (d : R) (c : PuzzleCircle.t) :
  geometry (PuzzleCircle.add_rotation d c) = geometry c.
Proof. reflexivity. Qed.

Lemma geometry_alter (d : R) (a : nat) (l : list PuzzleCircle.t) :
  geometry <$> alter (PuzzleCircle.add_rotation d) a l = geometry <$> l.
Proof.
  revert a. induction l as [|c l IH]; intros [|a]; try reflexivity.
  change (geometry c :: (geometry <$> alter (PuzzleCircle.add_rotation d) a l)
          = geometry c :: (geometry <$> l)).
  by rewrite IH.
Qed.

Lemma mousemove_cases (s : PuzzleController.t) (px py : R) :
  grip_ok s →
  PuzzleController.mousemove s px py = Some s ∨
  PuzzleController.mousemove s px py =
    Some (PuzzleController.set_lastCursorX (Some px) s) ∧
    PuzzleController.isDragging s = true ∨
  ∃ a d, (a < length (PuzzleController.circles s))%nat ∧
         PuzzleController.isDragging s = true ∧
         PuzzleController.activeCircle s = Some a ∧
         PuzzleController.mousemove s px py =
           Some (PuzzleController.set_lastCursorX (Some px)
                   (PuzzleController.rotateCircle s a d)).
Proof.
  intros Hgrip.
  destruct (PuzzleController.isDragging s) eqn:Hd.
  - destruct (PuzzleController.lastCursorX s) as [last|] eqn:Hl.
    + right. right. destruct (Hgrip Hd) as (a & Ha & Hlt).
      destruct (lookup_lt_is_Some_2 _ _ Hlt) as [c Hc].
      exists a. eexists. split; [exact Hlt|]. split; [reflexivity|].
      split; [exact Ha|]. by apply (mousemove_next s px py last a c).
    + right. left. split; [by apply mousemove_first | reflexivity].
  - left. by apply mousemove_idle.
Qed.

(** Under [grip_ok] every handler returns, keeps [grip_ok], and leaves the
    geometry of every ring as it is. *)
Lemma dispatch_grip_ok (s : PuzzleController.t) (e : event) :
  grip_ok s →
  ∃ s', dispatch s e = Some s' ∧ grip_ok s' ∧
        geometry <$> PuzzleController.circles s' = geometry <$> PuzzleController.circles s.
Proof.
  intros Hgrip. destruct e as [px py| |px py]; simpl.
  - destruct (mousedown_spec s px py) as [(j & [(c & Hc & _) _] & ->) | (_ & ->)].
    + eexists. split; [reflexivity|]. split; [|reflexivity].
      intros _. exists j. split; [reflexivity|].
      simpl. by apply lookup_lt_Some in Hc.
    + eauto.
  - eexists. split; [reflexivity|]. split; [|reflexivity].
    intros Hd. discriminate Hd.
  - destruct (mousemove_cases s px py Hgrip)
      as [-> | [[-> Hd] | (a & d & Hlt & Hd & Ha & ->)]].
    + eauto.
    + eexists. split; [reflexivity|]. split; [exact Hgrip | reflexivity].
    + eexists. split; [reflexivity|]. rewrite rotateCircle_eq. simpl. split.
      * intros _. exists a. simpl. split; [exact Ha|]. by rewrite length_alter.
      * apply geometry_alter.
Qed.

(** Whatever the state, a handler that returns has left the geometry of
    every ring as it was. *)
Lemma dispatch_geometry (s s' : PuzzleController.t) (e : event) :
  dispatch s e = Some s' →
  geometry <$> PuzzleController.circles s' = geometry <$> PuzzleController.circles s.
Proof.
  destruct e as [px py| |px py]; simpl.
  - destruct (mousedown_spec s px py) as [(j & _ & ->) | (_ & ->)]; by intros [= <-].
  - by intros [= <-].
  - unfold PuzzleController.mousemove.
    destruct (PuzzleController.isDragging s); simpl; [|by intros [= <-]].
    destruct (PuzzleController.lastCursorX s) as [last|]; [|by intros [= <-]].
    destruct (PuzzleController.activeCircle s) as [a|]; simpl; [|discriminate].
    destruct (PuzzleController.circles s !! a) as [c|]; simpl; [|discriminate].
    intros [= <-]. rewrite rotateCircle_eq. simpl. apply geometry_alter.
Qed.

Lemma dispatch_baseline_clean (s s' : PuzzleController.t) (e : event) :
  baseline_clean s → dispatch s e = Some s' → baseline_clean s'.
Proof.
  intros Hclean. destruct e as [px py| |px py]; simpl.
  - destruct (mousedown_spec s px py) as [(j & _ & ->) | (_ & ->)]; intros [= <-].
    + intros Hd. discriminate Hd.
    + exact Hclean.
  - intros [= <-]. intros _. reflexivity.
  - unfold PuzzleController.mousemove.
    destruct (PuzzleController.isDragging s) eqn:Hd; simpl; [|by intros [= <-]].
    destruct (PuzzleController.lastCursorX s) as [last|].
    + destruct (PuzzleController.activeCircle s) as [a|]; simpl; [|discriminate].
      destruct (PuzzleController.circles s !! a) as [c|]; simpl; [|discriminate].
      intros [= <-]. unfold baseline_clean. simpl. congruence.
    + intros [= <-]. unfold baseline_clean. simpl. congruence.
Qed.

Lemma run_invariants (es : list event) (s : PuzzleController.t) :
  grip_ok s →
  ∃ s', run s es = Some s' ∧ grip_ok s' ∧
        geometry <$> PuzzleController.circles s' = geometry <$> PuzzleController.circles s ∧
        (baseline_clean s → baseline_clean s').
Proof.
  revert s. induction es as [|e es IH]; intros s Hgrip.
  - exists s. by repeat split.
  - destruct (dispatch_grip_ok s e Hgrip) as (s1 & Hstep & Hgrip1 & Hgeo1).
    destruct (IH s1 Hgrip1) as (s' & Hrun & Hgrip' & Hgeo' & Hclean').
    exists s'. cbn [run]. rewrite Hstep. simpl.
    split; [exact Hrun|]. split; [exact Hgrip'|]. split; [congruence|].
    intros Hclean. apply Hclean'. eapply dispatch_baseline_clean; eassumption.
Qed.

(** ** The constructor *)

Lemma createCircles_length (cx cy : R) (img : Image.t) (d : R) (rnd : nat → R)
    (n i : nat) (r : R) :
  length (PuzzleController.createCircles cx cy img d rnd n i r) = n.
Proof. revert i r. induction n as [|n IH]; intros i r; simpl; [done | by rewrite IH]. Qed.

Lemma createCircles_lookup (cx cy : R) (img : Image.t) (d : R) (rnd : nat → R)
    (n i : nat) (r : R) (k : nat) :
  (k < n)%nat →
  PuzzleController.createCircles cx cy img d rnd n i r !! k =
  Some (PuzzleCircle.mk cx cy (r - INR k * d) img
          (rnd (i + k)%nat * PuzzleController.FULL_ROTATION)).
Proof.
  revert i r k. induction n as [|n IH]; intros i r k Hk; [lia|].
  destruct k as [|k].
  - simpl. rewrite Nat.add_0_r. do 2 f_equal. lra.
  - cbn [PuzzleController.createCircles lookup list_lookup].
    rewrite IH by lia. rewrite S_INR.
    replace (S i + k)%nat with (i + S k)%nat by lia.
    do 2 f_equal. lra.
Qed.

Lemma new_circles (canvas : PuzzleCanvas.t) (img : Image.t) (N : nat) (rnd : nat → R) :
  PuzzleController.circles (PuzzleController.new canvas img N rnd) =
  PuzzleController.createCircles
    (PuzzleCanvas.width canvas / 2) (PuzzleCanvas.height canvas / 2) img
    (PuzzleController.maxRadius canvas img / INR N) rnd N 0
    (PuzzleController.maxRadius canvas img).
Proof. reflexivity. Qed.

Lemma new_grip_ok (canvas : PuzzleCanvas.t) (img : Image.t) (N : nat) (rnd : nat → R) :
  grip_ok (PuzzleController.new canvas img N rnd).
Proof. intros Hd. discriminate Hd. Qed.

Lemma new_baseline_clean (canvas : PuzzleCanvas.t) (img : Image.t) (N : nat) (rnd : nat → R) :
  baseline_clean (PuzzleController.new canvas img N rnd).
Proof. intros _. reflexivity. Qed.

Lemma Math_min4_same (a : R) : Math_min4 a a a a = a.
Proof. unfold Math_min4. rewrite !(Rmin_left a a) by lra. reflexivity. Qed.

(** ** Runs of events from the constructed puzzle *)

(** C8. After any sequence of mousedown, mousemove and mouseup events on
    the constructed puzzle -- each handler returns -- there are as many
    rings as constructed, and the centre, the radius and the image of each
    ring are those it was constructed with.  No handler, in whatever state,
    changes a field of a ring other than its rotation. *)
Theorem rings_fixed (canvas : PuzzleCanvas.t) (img : Image.t) (N : nat)
    (rnd : nat → R) (es : list event) :
  (∃ s', run (PuzzleController.new canvas img N rnd) es = Some s' ∧
         length (PuzzleController.circles s') = N ∧
         geometry <$> PuzzleController.circles s' =
         geometry <$> PuzzleController.circles (PuzzleController.new canvas img N rnd)) ∧
  (∀ s e s', dispatch s e = Some s' →
             geometry <$> PuzzleController.circles s' =
             geometry <$> PuzzleController.circles s).
Proof.
  split; [|intros s e s'; apply dispatch_geometry].
  destruct (run_invariants es _ (new_grip_ok canvas img N rnd))
    as (s' & Hrun & _ & Hgeo & _).
  exists s'. split; [exact Hrun|]. split; [|exact Hgeo].
  apply (f_equal length) in Hgeo. rewrite !length_fmap in Hgeo.
  by rewrite Hgeo, new_circles, createCircles_length.
Qed.

Lemma run_app (es1 es2 : list event) (s : PuzzleController.t) :
  run s (es1 ++ es2) = run s es1 ≫= λ s1, run s1 es2.
Proof.
  revert s. induction es1 as [|e es1 IH]; intros s; [reflexivity|].
  cbn [app run]. destruct (dispatch s e) as [s1|]; simpl; [apply IH | reflexivity].
Qed.

Lemma mousedown_lastCursorX (s s' : PuzzleController.t) (px py : R) :
  PuzzleController.mousedown s px py = Some s' →
  PuzzleController.lastCursorX s' = PuzzleController.lastCursorX s.
Proof.
  destruct (mousedown_spec s px py) as [(j & _ & ->) | (_ & ->)]; by intros [= <-].
Qed.

(** C10. Outside a drag no horizontal position is cached.  [mouseup] ends
    the drag and clears the cache together; [mousemove] writes the cache
    only during a drag; [mousedown] never writes it.  So every handler
    preserves the invariant, it holds of the constructed puzzle and after any
    sequence of events, and a mousedown outside a drag starts the drag with
    nothing cached.  In particular, whatever happened before a mouseup, after
    it and any events that are not a mousedown, the next mousedown finds
    nothing cached and the move that follows it turns no ring: no baseline of
    the drag that ended reaches the next drag. *)
Theorem baseline_invariant (canvas : PuzzleCanvas.t) (img : Image.t) (N : nat)
    (rnd : nat → R) (es : list event) :
  (∀ s e s', baseline_clean s → dispatch s e = Some s' → baseline_clean s') ∧
  baseline_clean (PuzzleController.new canvas img N rnd) ∧
  (∀ s, ∃ s', PuzzleController.mouseup s = Some s' ∧
              PuzzleController.isDragging s' = false ∧
              PuzzleController.lastCursorX s' = None) ∧
  (∀ s px py s', PuzzleController.mousemove s px py = Some s' →
                 PuzzleController.lastCursorX s' ≠ PuzzleController.lastCursorX s →
                 PuzzleController.isDragging s = true) ∧
  (∀ s px py s', PuzzleController.mousedown s px py = Some s' →
                 PuzzleController.lastCursorX s' = PuzzleController.lastCursorX s) ∧
  ∃ s', run (PuzzleController.new canvas img N rnd) es = Some s' ∧
        baseline_clean s' ∧
        (PuzzleController.isDragging s' = false →
         ∀ px py, ∃ s'', PuzzleController.mousedown s' px py = Some s'' ∧
                         PuzzleController.lastCursorX s'' = None) ∧
        (∀ idle dx dy px py,
           forallb (λ e, negb (is_mousedown e)) idle = true →
           ∃ s1 s2 s3,
             run (PuzzleController.new canvas img N rnd) (es ++ MouseUp :: idle) = Some s1 ∧
             PuzzleController.isDragging s1 = false ∧
             PuzzleController.lastCursorX s1 = None ∧
             PuzzleController.circles s1 = PuzzleController.circles s' ∧
             PuzzleController.mousedown s1 dx dy = Some s2 ∧
             PuzzleController.lastCursorX s2 = None ∧
             PuzzleController.mousemove s2 px py = Some s3 ∧
             PuzzleController.circles s3 = PuzzleController.circles s').
Proof.
  split; [intros s e s'; apply dispatch_baseline_clean|].
  split; [apply new_baseline_clean|].
  split; [intros s; eexists; split; [reflexivity | by split]|].
  split.
  { intros s px py s' Hm Hne.
    destruct (PuzzleController.isDragging s) eqn:Hd; [reflexivity|].
    rewrite mousemove_idle in Hm by exact Hd. by injection Hm as <-. }
  split; [intros s px py s'; apply mousedown_lastCursorX|].
  destruct (run_invariants es _ (new_grip_ok canvas img N rnd))
    as (s' & Hrun & _ & _ & Hclean).
  specialize (Hclean (new_baseline_clean canvas img N rnd)).
  exists s'. split; [exact Hrun|]. split; [exact Hclean|]. split.
  - intros Hd px py. specialize (Hclean Hd).
    destruct (mousedown_spec s' px py) as [(j & _ & ->) | (_ & ->)]; eauto.
  - intros idle dx dy px py Hidle.
    set (s1 := PuzzleController.set_lastCursorX None
                 (PuzzleController.set_isDragging false s')).
    assert (run (PuzzleController.new canvas img N rnd) (es ++ MouseUp :: idle) = Some s1)
      as Hrun1.
    { rewrite run_app, Hrun. simpl.
      change (run s1 idle = Some s1). by apply run_without_mousedown. }
    destruct (mousedown_spec s1 dx dy) as [(j & _ & Hdown) | (_ & Hdown)].
    + exists s1. eexists. eexists. split; [exact Hrun1|].
      do 3 (split; [reflexivity|]). split; [exact Hdown|].
      split; [reflexivity|]. split; [by apply mousemove_first | reflexivity].
    + exists s1, s1, s1. split; [exact Hrun1|].
      do 3 (split; [reflexivity|]). split; [exact Hdown|].
      split; [reflexivity|]. split; [by apply mousemove_idle | reflexivity].
Qed.

Lemma run_step (s s1 : PuzzleController.t) (e : event) (es : list event) :
  dispatch s e = Some s1 → run s (e :: es) = run s1 es.
Proof. intros H. cbn [run]. by rewrite H. Qed.

(** A whole gesture on the puzzle of 400 x 400 with five rings: a mousedown
    on the centre grabs ring 4, the first move caches 100, and the move to
    80 below the centre adds 0.4 to the rotation ring 4 was created with. *)
Lemma gesture_on_innermost (rnd : nat → R) :
  ∃ s' c',
    run (PuzzleController.new canvas400 image400 5 rnd)
        [MouseDown 200 200; MouseMove 100 300; MouseMove 80 300] = Some s' ∧
    PuzzleController.isDragging s' = true ∧
    PuzzleController.activeCircle s' = Some 4%nat ∧
    PuzzleController.lastCursorX s' = Some 80 ∧
    PuzzleController.circles s' !! 4%nat = Some c' ∧
    PuzzleCircle.rotation c' = rnd 4%nat * (2 * PI) + 0.4.
Proof.
  set (s0 := PuzzleController.new canvas400 image400 5 rnd).
  assert (PuzzleController.maxRadius canvas400 image400 = 200) as Hmax.
  { unfold PuzzleController.maxRadius, PuzzleCanvas.getWidth, PuzzleCanvas.getHeight.
    simpl. rewrite Math_min4_same. lra. }
  assert (∃ c4, PuzzleController.circles s0 !! 4%nat = Some c4 ∧
                PuzzleCircle.x c4 = 200 ∧ PuzzleCircle.y c4 = 200 ∧
                PuzzleCircle.radius c4 = 40 ∧
                PuzzleCircle.rotation c4 = rnd 4%nat * (2 * PI)) as (c4 & Hc4 & Hx & Hy & Hr & Hrot).
  { eexists. split.
    - subst s0. rewrite new_circles. apply createCircles_lookup. lia.
    - simpl. rewrite Hmax. unfold PuzzleController.FULL_ROTATION.
      repeat split; lra. }
  assert (PuzzleCircle.isInside c4 200 200 = true) as Hin.
  { apply isInside_sqDistance. unfold sqDistance, Rsqr. rewrite Hx, Hy, Hr. lra. }
  assert (length (PuzzleController.circles s0) = 5%nat) as Hlen
    by (subst s0; by rewrite new_circles, createCircles_length).
  assert (PuzzleController.lastCursorX s0 = None) as Hl0 by reflexivity.
  clearbody s0.
  destruct (mousedown_spec s0 200 200) as [(j & Hj & Hdown) | (Hnone & _)];
    [|rewrite (Hnone _ _ Hc4) in Hin; discriminate].
  assert (j = 4%nat) as ->.
  { pose proof (innermost_at_above _ _ _ _ _ _ Hj Hc4 Hin) as Hle.
    destruct Hj as [(c & Hc & _) _]. apply lookup_lt_Some in Hc. lia. }
  erewrite run_step; [|exact Hdown].
  erewrite run_step; [|cbn [dispatch]; by apply mousemove_first].
  erewrite run_step;
    [|cbn [dispatch]; by apply (mousemove_next _ 80 300 100 4%nat c4)].
  rewrite rotateCircle_eq.
  eexists. eexists. split; [reflexivity|].
  do 3 (split; [reflexivity|]).
  split; [simpl; rewrite list_lookup_alter_eq, Hc4; reflexivity|].
  simpl. assert (Rltb 300 (PuzzleCircle.y c4) = false) as ->
    by (apply Rltb_false; lra).
  unfold PuzzleController.ROTATION_SPEED. lra.
Qed.

(** ** The canvas follows the rings *)

Lemma dispatch_in_sync (s s' : PuzzleController.t) (e : event) :
  in_sync s → dispatch s e = Some s' →
  in_sync s' ∧
  PuzzleCanvas.width (PuzzleController.puzzleCanvas s')
    = PuzzleCanvas.width (PuzzleController.puzzleCanvas s) ∧
  PuzzleCanvas.height (PuzzleController.puzzleCanvas s')
    = PuzzleCanvas.height (PuzzleController.puzzleCanvas s).
Proof.
  intros Hsync. destruct e as [px py| |px py]; simpl.
  - destruct (mousedown_spec s px py) as [(j & _ & ->) | (_ & ->)]; by intros [= <-].
  - by intros [= <-].
  - unfold PuzzleController.mousemove.
    destruct (PuzzleController.isDragging s); simpl; [|by intros [= <-]].
    destruct (PuzzleController.lastCursorX s) as [last|]; [|by intros [= <-]].
    destruct (PuzzleController.activeCircle s) as [a|]; simpl; [|discriminate].
    destruct (PuzzleController.circles s !! a) as [c|]; simpl; [|discriminate].
    intros [= <-]. rewrite rotateCircle_eq. by unfold in_sync.
Qed.

Lemma run_in_sync (es : list event) (s s' : PuzzleController.t) :
  in_sync s → run s es = Some s' →
  in_sync s' ∧
  PuzzleCanvas.width (PuzzleController.puzzleCanvas s')
    = PuzzleCanvas.width (PuzzleController.puzzleCanvas s) ∧
  PuzzleCanvas.height (PuzzleController.puzzleCanvas s')
    = PuzzleCanvas.height (PuzzleController.puzzleCanvas s).
Proof.
  revert s. induction es as [|e es IH]; intros s Hsync.
  - by intros [= <-].
  - cbn [run]. destruct (dispatch s e) as [s1|] eqn:Hstep; [|discriminate].
    simpl. intros Hrun.
    destruct (dispatch_in_sync s s1 e Hsync Hstep) as (Hsync1 & Hw1 & Hh1).
    destruct (IH s1 Hsync1 Hrun) as (Hsync' & Hw' & Hh').
    split; [exact Hsync'|]. split; congruence.
Qed.

Lemma new_in_sync (canvas : PuzzleCanvas.t) (img : Image.t) (N : nat) (rnd : nat → R) :
  in_sync (PuzzleController.new canvas img N rnd).
Proof. unfold in_sync, PuzzleController.new. by rewrite draw_canvas. Qed.

(** X1. After any sequence of events on the constructed puzzle the canvas
    shows exactly the current rings, in the order of their indices (the
    innermost painted last, on top), on a canvas of unchanged size: no
    rotation is left undrawn.  Hence the ring a mousedown grabs is the last
    painted ring that contains the point, and when no painted ring contains
    it the mousedown does nothing. *)
Theorem canvas_follows_rings (canvas : PuzzleCanvas.t) (img : Image.t) (N : nat)
    (rnd : nat → R) (es : list event) :
  ∃ s', run (PuzzleController.new canvas img N rnd) es = Some s' ∧
        PuzzleCanvas.painted (PuzzleController.puzzleCanvas s')
          = PuzzleController.circles s' ∧
        PuzzleCanvas.width (PuzzleController.puzzleCanvas s') = PuzzleCanvas.width canvas ∧
        PuzzleCanvas.height (PuzzleController.puzzleCanvas s') = PuzzleCanvas.height canvas ∧
        ∀ px py,
          (∃ j, innermost_at (PuzzleCanvas.painted (PuzzleController.puzzleCanvas s')) px py j ∧
                PuzzleController.mousedown s' px py = Some (grab j s')) ∨
          ((∀ k ck, PuzzleCanvas.painted (PuzzleController.puzzleCanvas s') !! k = Some ck →
                    PuzzleCircle.isInside ck px py = false) ∧
           PuzzleController.mousedown s' px py = Some s').
Proof.
  destruct (run_invariants es _ (new_grip_ok canvas img N rnd)) as (s' & Hrun & _).
  destruct (run_in_sync es _ s' (new_in_sync canvas img N rnd) Hrun) as (Hsync & Hw & Hh).
  exists s'. split; [exact Hrun|]. split; [exact Hsync|].
  split; [rewrite Hw; unfold PuzzleController.new; by rewrite draw_canvas|].
  split; [rewrite Hh; unfold PuzzleController.new; by rewrite draw_canvas|].
  intros px py. unfold in_sync in Hsync. rewrite Hsync. apply mousedown_spec.
Qed.

(** ** No handler fails on the constructed puzzle *)

Lemma mousemove_None (s : PuzzleController.t) (px py : R) :
  PuzzleController.mousemove s px py = None ↔
  PuzzleController.isDragging s = true ∧
  is_Some (PuzzleController.lastCursorX s) ∧
  (PuzzleController.activeCircle s ≫= λ a, PuzzleController.circles s !! a) = None.
Proof.
  unfold PuzzleController.mousemove.
  destruct (PuzzleController.isDragging s); simpl.
  - destruct (PuzzleController.lastCursorX s) as [last|].
    + destruct (PuzzleController.activeCircle s) as [a|]; simpl.
      * destruct (PuzzleController.circles s !! a) as [c|]; simpl.
        -- split; [discriminate | intros (_ & _ & H); discriminate H].
        -- split; [intros _; repeat split; eauto | reflexivity].
      * split; [intros _; repeat split; eauto | reflexivity].
    + split; [discriminate | intros (_ & [? H] & _); discriminate H].
  - split; [discriminate | intros (H & _); discriminate H].
Qed.

(** X2. [mousedown] and [mouseup] return in every state.  [mousemove]
    fails, on reading [y] of [activeCircle], exactly in a drag with a cached
    position and no active ring.  After any sequence of events on the
    constructed puzzle a drag has an active ring, which is one of the rings
    of the puzzle, so [mousemove] returns too. *)
Theorem handlers_never_fail (canvas : PuzzleCanvas.t) (img : Image.t) (N : nat)
    (rnd : nat → R) (es : list event) :
  (∀ s px py, is_Some (PuzzleController.mousedown s px py)) ∧
  (∀ s, is_Some (PuzzleController.mouseup s)) ∧
  (∀ s px py,
     PuzzleController.mousemove s px py = None ↔
     PuzzleController.isDragging s = true ∧
     is_Some (PuzzleController.lastCursorX s) ∧
     (PuzzleController.activeCircle s ≫= λ a, PuzzleController.circles s !! a) = None) ∧
  ∃ s', run (PuzzleController.new canvas img N rnd) es = Some s' ∧
        (PuzzleController.isDragging s' = true →
         ∃ a c, PuzzleController.activeCircle s' = Some a ∧
                PuzzleController.circles s' !! a = Some c) ∧
        ∀ px py, is_Some (PuzzleController.mousemove s' px py).
Proof.
  split.
  { intros s px py.
    destruct (mousedown_spec s px py) as [(j & _ & ->) | (_ & ->)]; eauto. }
  split; [intros s; by eexists|].
  split; [apply mousemove_None|].
  destruct (run_invariants es _ (new_grip_ok canvas img N rnd))
    as (s' & Hrun & Hgrip & _).
  exists s'. split; [exact Hrun|].
  assert (PuzzleController.isDragging s' = true →
          ∃ a c, PuzzleController.activeCircle s' = Some a ∧
                 PuzzleController.circles s' !! a = Some c) as Hring.
  { intros Hd. destruct (Hgrip Hd) as (a & Ha & Hlt).
    destruct (lookup_lt_is_Some_2 _ _ Hlt) as [c Hc]. eauto. }
  split; [exact Hring|].
  intros px py.
  destruct (PuzzleController.mousemove s' px py) as [s''|] eqn:Hm; [by eexists|].
  apply mousemove_None in Hm as (Hd & _ & Hnone).
  destruct (Hring Hd) as (a & c & Ha & Hc).
  rewrite Ha in Hnone. simpl in Hnone. congruence.
Qed.

(** ** A drag and the other rings *)

Lemma dispatch_keeps_others (s s' : PuzzleController.t) (e : event) :
  is_mousedown e = false → dispatch s e = Some s' →
  PuzzleController.activeCircle s' = PuzzleController.activeCircle s ∧
  ∀ k, PuzzleController.activeCircle s ≠ Some k →
       PuzzleController.circles s' !! k = PuzzleController.circles s !! k.
Proof.
  destruct e as [px py| |px py]; simpl; [discriminate| |]; intros _.
  - by intros [= <-].
  - unfold PuzzleController.mousemove.
    destruct (PuzzleController.isDragging s); simpl; [|by intros [= <-]].
    destruct (PuzzleController.lastCursorX s) as [last|]; [|by intros [= <-]].
    destruct (PuzzleController.activeCircle s) as [a|] eqn:Ha; simpl; [|discriminate].
    destruct (PuzzleController.circles s !! a) as [c|]; simpl; [|discriminate].
    intros [= <-]. rewrite rotateCircle_eq. simpl. split; [exact Ha|].
    intros k Hk. apply list_lookup_alter_ne. congruence.
Qed.

(** X3. From a mousedown to the next one, only the ring that was grabbed
    can change: when [activeCircle] is ring [a], a run of mousemove and
    mouseup events leaves [activeCircle] on ring [a] and every other ring
    exactly as it was, rotation included. *)
Theorem drag_touches_only_grabbed (s s' : PuzzleController.t) (a : nat)
    (es : list event) :
  PuzzleController.activeCircle s = Some a →
  forallb (λ e, negb (is_mousedown e)) es = true →
  run s es = Some s' →
  PuzzleController.activeCircle s' = Some a ∧
  ∀ k, k ≠ a → PuzzleController.circles s' !! k = PuzzleController.circles s !! k.
Proof.
  revert s. induction es as [|e es IH]; intros s Ha Hes.
  - intros [= <-]. by split.
  - apply andb_true_iff in Hes as [He Hes]. apply negb_true_iff in He.
    cbn [run]. destruct (dispatch s e) as [s1|] eqn:Hstep; [|discriminate].
    simpl. intros Hrun.
    destruct (dispatch_keeps_others s s1 e He Hstep) as [Ha1 Hk1].
    destruct (IH s1 ltac:(congruence) Hes Hrun) as [Ha' Hk'].
    split; [exact Ha'|]. intros k Hk. rewrite Hk' by exact Hk.
    apply Hk1. congruence.
Qed.

(** The theorem at a drag of the inner of two rings: two moves and a
    mouseup leave the outer ring with its rotation 1. *)
Lemma drag_touches_only_grabbed_witness :
  ∃ s', run dragging_inner [MouseMove 80 300; MouseMove 60 100; MouseUp] = Some s' ∧
        PuzzleController.activeCircle s' = Some 1%nat ∧
        PuzzleController.circles s' !! 0%nat
          = Some (PuzzleCircle.mk 200 200 200 image400 1).
Proof.
  eexists. split; [reflexivity|].
  destruct (drag_touches_only_grabbed dragging_inner _ 1%nat
              [MouseMove 80 300; MouseMove 60 100; MouseUp]
              eq_refl eq_refl eq_refl) as [Ha Hk].
  split; [exact Ha|]. rewrite (Hk 0%nat) by lia. reflexivity.
Defined.

(** ** Hit testing on the constructed puzzle *)

Lemma innermost_at_unique (cs : list PuzzleCircle.t) (px py : R) (j j' : nat) :
  innermost_at cs px py j → innermost_at cs px py j' → j = j'.
Proof.
  intros Hj Hj'.
  pose proof Hj as [(c & Hc & Hin) _]. pose proof Hj' as [(c' & Hc' & Hin') _].
  pose proof (innermost_at_above _ _ _ _ _ _ Hj Hc' Hin').
  pose proof (innermost_at_above _ _ _ _ _ _ Hj' Hc Hin).
  lia.
Qed.

Lemma mousedown_innermost (s : PuzzleController.t) (px py : R) (j : nat) :
  innermost_at (PuzzleController.circles s) px py j →
  PuzzleController.mousedown s px py = Some (grab j s).
Proof.
  intros Hj. destruct (mousedown_spec s px py) as [(j' & Hj' & ->) | (Hnone & _)].
  - by rewrite (innermost_at_unique _ _ _ _ _ Hj Hj').
  - destruct Hj as [(c & Hc & Hin) _]. rewrite (Hnone _ _ Hc) in Hin. discriminate.
Qed.

Lemma new_lookup (canvas : PuzzleCanvas.t) (img : Image.t) (N : nat) (rnd : nat → R)
    (i : nat) (c : PuzzleCircle.t) :
  PuzzleController.circles (PuzzleController.new canvas img N rnd) !! i = Some c ↔
  (i < N)%nat ∧
  c = PuzzleCircle.mk (PuzzleCanvas.width canvas / 2) (PuzzleCanvas.height canvas / 2)
        (PuzzleController.maxRadius canvas img
         - INR i * (PuzzleController.maxRadius canvas img / INR N))
        img (rnd i * PuzzleController.FULL_ROTATION).
Proof.
  rewrite new_circles. split.
  - intros Hc. assert (i < N)%nat as Hi.
    { apply lookup_lt_Some in Hc. by rewrite createCircles_length in Hc. }
    split; [exact Hi|]. rewrite createCircles_lookup in Hc by exact Hi.
    by injection Hc as <-.
  - intros [Hi ->]. by rewrite createCircles_lookup.
Qed.

Lemma new_radius_bounds (canvas : PuzzleCanvas.t) (img : Image.t) (N : nat)
    (rnd : nat → R) (i : nat) (c : PuzzleCircle.t) :
  0 <= PuzzleController.maxRadius canvas img →
  PuzzleController.circles (PuzzleController.new canvas img N rnd) !! i = Some c →
  0 <= PuzzleCircle.radius c <= PuzzleController.maxRadius canvas img.
Proof.
  intros Hpos [Hi ->]%new_lookup. simpl.
  set (R0 := PuzzleController.maxRadius canvas img) in *.
  assert (INR i + 1 <= INR N) as Hle by (rewrite <- S_INR; apply le_INR; lia).
  pose proof (pos_INR i) as Hi0.
  assert (0 < INR N) as HN by lra.
  assert (0 <= R0 / INR N) as Hstep.
  { apply Rmult_le_pos; [exact Hpos|]. left. by apply Rinv_0_lt_compat. }
  assert (R0 / INR N * INR N = R0) as Hmul by (field; lra).
  split; nra.
Qed.

Lemma maxRadius_400 : PuzzleController.maxRadius canvas400 image400 = 200.
Proof.
  unfold PuzzleController.maxRadius, PuzzleCanvas.getWidth, PuzzleCanvas.getHeight.
  simpl. rewrite Math_min4_same. lra.
Qed.

(** ** What the constructor guarantees *)

Lemma Math_min4_le (a b c d : R) :
  Math_min4 a b c d <= a ∧ Math_min4 a b c d <= b ∧
  Math_min4 a b c d <= c ∧ Math_min4 a b c d <= d.
Proof.
  unfold Math_min4, Rmin. repeat destruct (Rle_dec _ _); repeat split; lra.
Qed.

(** X8. The radius is chosen so that the rings fit the canvas: when
    maxRadius is not negative, every point inside a ring of the constructed
    puzzle lies strictly within the canvas rectangle, and its horizontal and
    vertical offsets from the centre of the ring are less than half the
    width and half the height of the image. *)
Theorem rings_fit (canvas : PuzzleCanvas.t) (img : Image.t) (N : nat)
    (rnd : nat → R) (i : nat) (c : PuzzleCircle.t) (px py : R) :
  0 <= PuzzleController.maxRadius canvas img →
  PuzzleController.circles (PuzzleController.new canvas img N rnd) !! i = Some c →
  PuzzleCircle.isInside c px py = true →
  0 < px < PuzzleCanvas.width canvas ∧
  0 < py < PuzzleCanvas.height canvas ∧
  Rabs (px - PuzzleCircle.x c) < Image.width img / 2 ∧
  Rabs (py - PuzzleCircle.y c) < Image.height img / 2.
Proof.
  intros Hpos Hc Hin.
  pose proof (new_radius_bounds _ _ _ _ _ _ Hpos Hc) as [Hr0 Hr1].
  apply isInside_sqDistance in Hin.
  apply new_lookup in Hc as [_ Hc].
  assert (PuzzleCircle.x c = PuzzleCanvas.width canvas / 2) as Hx by (by subst c).
  assert (PuzzleCircle.y c = PuzzleCanvas.height canvas / 2) as Hy by (by subst c).
  clear Hc. unfold sqDistance in Hin. rewrite Hx, Hy in *.
  unfold PuzzleController.maxRadius, PuzzleCanvas.getWidth, PuzzleCanvas.getHeight in Hr1.
  destruct (Math_min4_le (PuzzleCanvas.width canvas) (PuzzleCanvas.height canvas)
              (Image.width img) (Image.height img)) as (Hw & Hh & Hiw & Hih).
  set (r := PuzzleCircle.radius c) in *.
  set (dx := px - PuzzleCanvas.width canvas / 2) in *.
  set (dy := py - PuzzleCanvas.height canvas / 2) in *.
  assert (Rabs dx < r) as Hdx.
  { rewrite <- (Rabs_pos_eq r) by exact Hr0. apply Rsqr_lt_abs_0.
    pose proof (Rle_0_sqr dy). lra. }
  assert (Rabs dy < r) as Hdy.
  { rewrite <- (Rabs_pos_eq r) by exact Hr0. apply Rsqr_lt_abs_0.
    pose proof (Rle_0_sqr dx). lra. }
  pose proof (Rabs_def2 _ _ Hdx) as [Hdx1 Hdx2].
  pose proof (Rabs_def2 _ _ Hdy) as [Hdy1 Hdy2].
  subst dx dy.
  repeat split; lra.
Qed.

(** The theorem at the puzzle of 400 x 400 with five rings: (10, 200),
    inside ring 0, is on the canvas. *)
Lemma rings_fit_witness :
  0 < 10 < PuzzleCanvas.width canvas400 ∧ 0 < 200 < PuzzleCanvas.height canvas400.
Proof.
  destruct (rings_fit canvas400 image400 5 (λ _, 0) 0
              (PuzzleCircle.mk (400 / 2) (400 / 2)
                 (PuzzleController.maxRadius canvas400 image400
                  - INR 0 * (PuzzleController.maxRadius canvas400 image400 / INR 5))
                 image400 (0 * PuzzleController.FULL_ROTATION)) 10 200)
    as (Hx & Hy & _).
  - rewrite maxRadius_400. lra.
  - apply new_lookup. split; [lia | reflexivity].
  - apply isInside_sqDistance. unfold sqDistance, Rsqr. simpl.
    rewrite maxRadius_400. lra.
  - exact (conj Hx Hy).
Defined.

(** X9. When every draw of [Math.random] is in [0, 1), every ring of the
    constructed puzzle starts with a rotation in [0, 2 pi), and ring i takes
    the i-th draw. *)
Theorem initial_rotation_range (canvas : PuzzleCanvas.t) (img : Image.t) (N : nat)
    (rnd : nat → R) (i : nat) (c : PuzzleCircle.t) :
  (∀ k, 0 <= rnd k < 1) →
  PuzzleController.circles (PuzzleController.new canvas img N rnd) !! i = Some c →
  PuzzleCircle.rotation c = rnd i * (2 * PI) ∧
  0 <= PuzzleCircle.rotation c < 2 * PI.
Proof.
  intros Hrnd [_ ->]%new_lookup. simpl. unfold PuzzleController.FULL_ROTATION.
  pose proof PI_RGT_0 as Hpi. destruct (Hrnd i) as [H0 H1].
  split; [lra|]. nra.
Qed.

(** The theorem at the puzzle of 400 x 400 with five rings and every draw
    equal to 1/2: ring 3 starts half a turn round. *)
Lemma initial_rotation_range_witness :
  ∃ c, PuzzleController.circles
         (PuzzleController.new canvas400 image400 5 (λ _, / 2)) !! 3%nat = Some c ∧
       PuzzleCircle.rotation c = / 2 * (2 * PI) ∧
       0 <= PuzzleCircle.rotation c < 2 * PI.
Proof.
  eexists. split; [apply new_lookup; split; [lia | reflexivity]|].
  apply (initial_rotation_range canvas400 image400 5 (λ _, / 2) 3).
  - intros k. lra.
  - apply new_lookup. split; [lia | reflexivity].
Defined.

(** X10. With [numCircles] 0 the constructor creates no ring, and the
    puzzle is inert: every sequence of events returns and leaves the
    controller, canvas included, as it was constructed. *)
Theorem no_rings_inert (canvas : PuzzleCanvas.t) (img : Image.t) (rnd : nat → R)
    (es : list event) :
  PuzzleController.circles (PuzzleController.new canvas img 0 rnd) = [] ∧
  run (PuzzleController.new canvas img 0 rnd) es
    = Some (PuzzleController.new canvas img 0 rnd).
Proof.
  split; [reflexivity|].
  induction es as [|e es IH]; [reflexivity|].
  erewrite run_step; [exact IH|].
  destruct e as [px py| |px py]; reflexivity.
Qed.

(** ** The cursor position *)

Lemma truthy_Some (v : R) : UTIL.truthy (Some v) = true ↔ v ≠ 0.
Proof.
  unfold UTIL.truthy. destruct (Req_dec_T v 0); split; intros; (done || congruence).
Qed.

(** X11. [PuzzleCanvas.prototype.getCursorPosition] gives the page
    position of the event less the offset of the canvas, whatever the client
    position and the scroll offsets, when [pageX] and [pageY] are numbers
    that are not both 0.  When both are [undefined], or both are 0, it gives
    the client position plus the scroll offsets of the body and of the
    document element, less the offset of the canvas.  So when the page
    position is the client position plus the scroll offsets, the result is
    the page position less the offset in every case, the page origin
    included.  When [pageX] is a number other than 0 and [pageY] is
    [undefined], the vertical coordinate is not a number. *)
Theorem cursor_position (canvas : CanvasElement.t) (document : UTIL.Document)
    (event : UTIL.MouseEvent) :
  let fallback :=
    (Some (UTIL.clientX event + UTIL.body_scrollLeft document
           + UTIL.documentElement_scrollLeft document
           - CanvasElement.offsetLeft canvas),
     Some (UTIL.clientY event + UTIL.body_scrollTop document
           + UTIL.documentElement_scrollTop document
           - CanvasElement.offsetTop canvas)) in
  (∀ px py,
     UTIL.pageX event = Some px → UTIL.pageY event = Some py → px ≠ 0 ∨ py ≠ 0 →
     CanvasElement.getCursorPosition canvas document event =
       (Some (px - CanvasElement.offsetLeft canvas),
        Some (py - CanvasElement.offsetTop canvas))) ∧
  (UTIL.pageX event = None → UTIL.pageY event = None →
   CanvasElement.getCursorPosition canvas document event = fallback) ∧
  (UTIL.pageX event = Some 0 → UTIL.pageY event = Some 0 →
   CanvasElement.getCursorPosition canvas document event = fallback) ∧
  (∀ px py,
     UTIL.pageX event = Some px → UTIL.pageY event = Some py →
     px = UTIL.clientX event + UTIL.body_scrollLeft document
          + UTIL.documentElement_scrollLeft document →
     py = UTIL.clientY event + UTIL.body_scrollTop document
          + UTIL.documentElement_scrollTop document →
     CanvasElement.getCursorPosition canvas document event =
       (Some (px - CanvasElement.offsetLeft canvas),
        Some (py - CanvasElement.offsetTop canvas))) ∧
  (∀ px,
     UTIL.pageX event = Some px → px ≠ 0 → UTIL.pageY event = None →
     CanvasElement.getCursorPosition canvas document event =
       (Some (px - CanvasElement.offsetLeft canvas), None)).
Proof.
  intros fallback.
  assert (UTIL.truthy (Some 0) = false) as H0.
  { destruct (UTIL.truthy (Some 0)) eqn:E; [|reflexivity].
    apply truthy_Some in E. congruence. }
  assert (∀ px py,
     UTIL.pageX event = Some px → UTIL.pageY event = Some py → px ≠ 0 ∨ py ≠ 0 →
     CanvasElement.getCursorPosition canvas document event =
       (Some (px - CanvasElement.offsetLeft canvas),
        Some (py - CanvasElement.offsetTop canvas))) as Hpage.
  { intros px py Hx Hy Hnz.
    unfold CanvasElement.getCursorPosition, UTIL.getCursorPosition.
    rewrite Hx, Hy.
    assert (UTIL.truthy (Some px) || UTIL.truthy (Some py) = true) as ->.
    { apply orb_true_iff. destruct Hnz; [left | right]; by apply truthy_Some. }
    reflexivity. }
  assert (UTIL.pageX event = Some 0 → UTIL.pageY event = Some 0 →
          CanvasElement.getCursorPosition canvas document event = fallback) as Hzero.
  { intros Hx Hy. unfold CanvasElement.getCursorPosition, UTIL.getCursorPosition.
    rewrite Hx, Hy, H0. reflexivity. }
  split; [exact Hpage|]. split; [|split; [exact Hzero|split]].
  - intros Hx Hy. unfold CanvasElement.getCursorPosition, UTIL.getCursorPosition.
    rewrite Hx, Hy. reflexivity.
  - intros px py Hx Hy Hpx Hpy.
    destruct (Req_dec_T px 0) as [Ex|Ex]; [destruct (Req_dec_T py 0) as [Ey|Ey]|].
    + rewrite Hzero by congruence. subst fallback. simpl.
      rewrite <- Hpx, <- Hpy. reflexivity.
    + apply Hpage; auto.
    + apply Hpage; auto.
  - intros px Hx Hnz Hy.
    unfold CanvasElement.getCursorPosition, UTIL.getCursorPosition.
    rewrite Hx, Hy. apply truthy_Some in Hnz. rewrite Hnz. reflexivity.
Qed.

(** The theorem at an event at page position (250, 300), client position
    (200, 200), in a document scrolled by (50, 100), on a canvas at
    (10, 20); and at the same event without page position. *)
Lemma cursor_position_witness :
  CanvasElement.getCursorPosition canvas_at_10_20 scrolled event_page
    = (Some (250 - 10), Some (300 - 20)) ∧
  CanvasElement.getCursorPosition canvas_at_10_20 scrolled event_legacy
    = (Some (200 + 50 + 0 - 10), Some (200 + 100 + 0 - 20)).
Proof.
  split.
  - destruct (cursor_position canvas_at_10_20 scrolled event_page) as (Hpage & _).
    apply (Hpage 250 300 eq_refl eq_refl). left. lra.
  - destruct (cursor_position canvas_at_10_20 scrolled event_legacy) as (_ & Hnone & _).
    exact (Hnone eq_refl eq_refl).
Defined.

(** ** What a frame asks of the context *)

Lemma drawPuzzleCircle_commands (ctx : Context2D.t) (c : PuzzleCircle.t) :
  PuzzleCanvas2D.drawPuzzleCircle ctx c =
  Context2D.mk (Context2D.current ctx) (Context2D.saved ctx)
    [Context2D.Arc
       (Context2D.transform (Context2D.current ctx)
        ++ [Context2D.Translate (PuzzleCircle.x c) (PuzzleCircle.y c);
            Context2D.Rotate (PuzzleCircle.rotation c)])
       0 0 (PuzzleCircle.radius c) 0 (PI * 2) false]
    (Context2D.output ctx ++ [ring_command (Context2D.current ctx) c]).
Proof.
  unfold PuzzleCanvas2D.drawPuzzleCircle, ring_command.
  unfold Context2D.restore, Context2D.drawImage, Context2D.clip, Context2D.arc,
    Context2D.beginPath, Context2D.rotate, Context2D.translate,
    Context2D.apply_transform, Context2D.set_globalCompositeOperation,
    Context2D.save.
  simpl. by rewrite <- !app_assoc.
Qed.

Lemma draw_rings_commands (cs : list PuzzleCircle.t) (ctx : Context2D.t) :
  Context2D.current (fold_left PuzzleCanvas2D.drawPuzzleCircle cs ctx)
    = Context2D.current ctx ∧
  Context2D.saved (fold_left PuzzleCanvas2D.drawPuzzleCircle cs ctx)
    = Context2D.saved ctx ∧
  Context2D.output (fold_left PuzzleCanvas2D.drawPuzzleCircle cs ctx)
    = Context2D.output ctx ++ (ring_command (Context2D.current ctx) <$> cs).
Proof.
  revert ctx. induction cs as [|c cs IH]; intros ctx.
  - simpl. by rewrite app_nil_r.
  - cbn [fold_left]. destruct (IH (PuzzleCanvas2D.drawPuzzleCircle ctx c))
      as (Hcur & Hsaved & Hout).
    rewrite Hcur, Hsaved, Hout, drawPuzzleCircle_commands. simpl.
    by rewrite <- app_assoc.
Qed.

(** X12. A frame -- [clear], then [drawPuzzleCircle] for each ring -- asks
    the context for one clearing of the whole canvas and then one image per
    ring, in the order of the indices.  Each image is drawn under the
    transformation the context had before the frame followed by the
    translation and the rotation of its own ring only, clipped to its own
    circle only, and composited source-over.  After the frame the
    transformation, the clipping region and the stack of saved states of the
    context are as before; its composite operation is destination-over. *)
Theorem frame_commands (canvasWidth canvasHeight : R) (cs : list PuzzleCircle.t)
    (ctx : Context2D.t) :
  let base :=
    Context2D.mkState Context2D.destination_over
      (Context2D.transform (Context2D.current ctx))
      (Context2D.clipping (Context2D.current ctx)) in
  let ctx' := PuzzleCanvas2D.draw canvasWidth canvasHeight cs ctx in
  Context2D.current ctx' = base ∧
  Context2D.saved ctx' = Context2D.saved ctx ∧
  Context2D.output ctx' =
    Context2D.output ctx
    ++ Context2D.ClearRect base 0 0 canvasWidth canvasHeight
       :: (ring_command base <$> cs).
Proof.
  intros base ctx'. subst ctx'. unfold PuzzleCanvas2D.draw.
  destruct (draw_rings_commands cs (PuzzleCanvas2D.clear canvasWidth canvasHeight ctx))
    as (Hcur & Hsaved & Hout).
  rewrite Hcur, Hsaved, Hout. simpl.
  split; [reflexivity|]. split; [reflexivity|].
  by rewrite <- app_assoc.
Qed.

(** ** A mousedown in the middle of a drag *)

(** X13. The mousedown handler does not touch the cached position.  So
    when a mousedown arrives during a drag that has [x0] cached and grabs
    ring [j], the very next move turns ring [j] by the displacement from
    [x0], a position cached before ring [j] was grabbed: at or below the
    centre its rotation changes by -(px - x0) / 50 at once, where the first
    move after a mousedown outside a drag changes nothing. *)
Theorem regrab_keeps_baseline (s : PuzzleController.t) (j : nat) (c : PuzzleCircle.t)
    (x0 dx dy px py : R) :
  PuzzleController.isDragging s = true →
  PuzzleController.lastCursorX s = Some x0 →
  innermost_at (PuzzleController.circles s) dx dy j →
  PuzzleController.circles s !! j = Some c →
  PuzzleCircle.y c <= py →
  ∃ s' c',
    run s [MouseDown dx dy; MouseMove px py] = Some s' ∧
    PuzzleController.activeCircle s' = Some j ∧
    PuzzleController.circles s' !! j = Some c' ∧
    PuzzleCircle.rotation c' = PuzzleCircle.rotation c - (px - x0) / 50.
Proof.
  intros Hd Hl Hj Hc Hpy.
  erewrite run_step; [|cbn [dispatch]; by apply mousedown_innermost].
  erewrite run_step;
    [|cbn [dispatch]; by apply (mousemove_next (grab j s) px py x0 j c)].
  apply Rltb_false in Hpy. rewrite Hpy, rotateCircle_eq.
  eexists. eexists. split; [reflexivity|]. simpl.
  split; [reflexivity|].
  split; [rewrite list_lookup_alter_eq, Hc; reflexivity|].
  simpl. unfold PuzzleController.ROTATION_SPEED. lra.
Qed.

Lemma two_rings_innermost_centre : innermost_at two_rings 200 200 1.
Proof.
  split.
  - eexists. split; [reflexivity|]. by apply (two_rings_centre_inside _ 1%nat).
  - intros k ck Hk Hck. apply lookup_lt_Some in Hck. simpl in Hck. lia.
Qed.

(** The theorem at a drag of the inner of two rings, of rotation 2, with
    100 cached: a mousedown on the centre and a move to (80, 300) bring the
    rotation to 2 - (80 - 100) / 50. *)
Lemma regrab_keeps_baseline_witness :
  ∃ s' c',
    run dragging_inner [MouseDown 200 200; MouseMove 80 300] = Some s' ∧
    PuzzleController.activeCircle s' = Some 1%nat ∧
    PuzzleController.circles s' !! 1%nat = Some c' ∧
    PuzzleCircle.rotation c' = 2 - (80 - 100) / 50.
Proof.
  apply (regrab_keeps_baseline dragging_inner 1%nat
           (PuzzleCircle.mk 200 200 100 image400 2) 100 200 200 80 300
           eq_refl eq_refl two_rings_innermost_centre eq_refl).
  simpl. lra.
Defined.

(** ** The binary64 arithmetic of the code *)

Section Binary64Facts.

Import PrimFloat FloatOps SpecFloat FloatAxioms.
Import Binary64.
#[local] Open Scope float_scope.
#[local] Set Warnings "-inexact-float".

(** *** Comparison and sign *)








(** *** isInside *)




(** *** rotateCircle *)

Lemma paint_all64 (l : list PuzzleCircle.t) (c : PuzzleCanvas.t) :
  fold_left PuzzleCanvas.drawPuzzleCircle l c =
  PuzzleCanvas.mk (PuzzleCanvas.width c) (PuzzleCanvas.height c)
                  (PuzzleCanvas.painted c ++ l).
Proof.
  revert c. induction l as [|r l IH]; intros c.
  - destruct c. simpl. by rewrite app_nil_r.
  - simpl. rewrite IH. simpl. by rewrite <- app_assoc.
Qed.

Lemma rotateCircle64_eq (s : PuzzleController.t) (a : nat) (d : float) :
  PuzzleController.rotateCircle s a d =
  PuzzleController.mk
    (PuzzleCanvas.mk (PuzzleCanvas.width (PuzzleController.puzzleCanvas s))
                     (PuzzleCanvas.height (PuzzleController.puzzleCanvas s))
                     (alter (PuzzleCircle.add_rotation d) a (PuzzleController.circles s)))
    (PuzzleController.isDragging s) (PuzzleController.activeCircle s)
    (alter (PuzzleCircle.add_rotation d) a (PuzzleController.circles s))
    (PuzzleController.lastCursorX s).
Proof.
  unfold PuzzleController.rotateCircle, PuzzleController.draw,
    PuzzleController.set_puzzleCanvas. simpl.
  by rewrite paint_all64.
Qed.

(** C7. [rotateCircle] adds the delta to the rotation with the addition of
    Numbers and does nothing else to it: after a delta [d1] and then a delta
    [d2] the rotation of the ring is (r + d1) + d2, the sum taken from left
    to right, with no reduction of the angle.  The centre, the radius and
    the image of the ring and the other rings stay as they are, and the
    canvas shows the rings as they then are. *)
Theorem rotateCircle_accumulates (s : PuzzleController.t) (a : nat)
    (c : PuzzleCircle.t) (d1 d2 : float) :
  PuzzleController.circles s !! a = Some c →
  let s' := PuzzleController.rotateCircle (PuzzleController.rotateCircle s a d1) a d2 in
  (∃ c', PuzzleController.circles s' !! a = Some c' ∧
         PuzzleCircle.rotation c' = PuzzleCircle.rotation c + d1 + d2 ∧
         geometry c' = geometry c) ∧
  (∀ k, k ≠ a → PuzzleController.circles s' !! k = PuzzleController.circles s !! k) ∧
  length (PuzzleController.circles s') = length (PuzzleController.circles s) ∧
  PuzzleCanvas.painted (PuzzleController.puzzleCanvas s') = PuzzleController.circles s'.
Proof.
  intros Hc s'. subst s'. rewrite !rotateCircle64_eq. simpl.
  split; [|split; [|split]].
  - eexists. split; [by rewrite !list_lookup_alter_eq, Hc|]. by split.
  - intros k Hk. by rewrite !list_lookup_alter_ne.
  - by rewrite !length_alter.
  - reflexivity.
Qed.

(** The theorem at one ring of rotation 6: the deltas 1 and 2 bring it to
    9, beyond a full turn. *)
Lemma rotateCircle_accumulates_witness :
  ∃ c', PuzzleController.circles
          (PuzzleController.rotateCircle
             (PuzzleController.rotateCircle (one_ring 6) 0 1) 0 2) !! 0%nat
        = Some c' ∧
        PuzzleCircle.rotation c' = 9.
Proof.
  destruct (rotateCircle_accumulates (one_ring 6) 0 (ring_at_origin 1 6) 1 2 eq_refl)
    as [(c' & Hc & Hr & _) _].
  exists c'. split; [exact Hc|]. rewrite Hr. reflexivity.
Defined.

(** The order of the deltas matters, and so does adding them first.  From
    the rotation 0.5, the deltas 0.2 and then 0.1 give 0.7999999999999999;
    the delta 0.2 + 0.1 in one step, and the deltas 0.1 and then 0.2, give
    0.8. *)
Lemma rotation_order_matters :
  PuzzleCircle.rotation <$>
    PuzzleController.circles
      (PuzzleController.rotateCircle
         (PuzzleController.rotateCircle (one_ring 0.5) 0 0.2) 0 0.1)
    = [0.7999999999999999] ∧
  PuzzleCircle.rotation <$>
    PuzzleController.circles (PuzzleController.rotateCircle (one_ring 0.5) 0 (0.2 + 0.1))
    = [0.8] ∧
  PuzzleCircle.rotation <$>
    PuzzleController.circles
      (PuzzleController.rotateCircle
         (PuzzleController.rotateCircle (one_ring 0.5) 0 0.1) 0 0.2)
    = [0.8] ∧
  (0.7999999999999999 =? 0.8) = false.
Proof. repeat split; vm_compute; reflexivity. Qed.

(** *** The constructor *)







End Binary64Facts.
